(** * wordify/mvp.py: the concurrent page-OCR pipeline

    A shallow embedding of [src/wordify/mvp.py].  The external engines
    (poppler, tesseract, PIL, the operating system) are oracles collected in
    an environment record; the file system, the standard output and the
    [PageProcessor.results] dictionary are explicit state threaded through a
    state-and-exception monad.  The worker pool is an interleaving of the
    atomic actions of [process_page], driven by an arbitrary schedule. *)

From Stdlib Require Import ZArith Ascii DecimalString DecimalZ.
From stdpp Require Import gmap strings list fin_maps.

Local Open Scope string_scope.
Local Open Scope Z_scope.

(** ** Python strings *)

Module PyStr.

(** [str(z)] for a Python [int]: decimal digits, a leading minus sign for
    negative numbers. *)
Definition str_int (z : Z) : string := NilEmpty.string_of_int (Z.to_int z).

(** [s.startswith(c)] for a one-character [c]. *)
Definition starts_with_char (c : ascii) (s : string) : bool :=
  match s with
  | String c' _ => bool_decide (c' = c)
  | EmptyString => false
  end.

(** [s.endswith(c)] for a one-character [c]. *)
Fixpoint ends_with_char (c : ascii) (s : string) : bool :=
  match s with
  | EmptyString => false
  | String c' EmptyString => bool_decide (c' = c)
  | String _ s' => ends_with_char c s'
  end.

(** [c in s]. *)
Fixpoint has_char (c : ascii) (s : string) : bool :=
  match s with
  | EmptyString => false
  | String c' s' => bool_decide (c' = c) || has_char c s'
  end.

End PyStr.

(** ** os.path *)

Module OsPath.

(** [os.path.join(a, b)] with separator [sep] (posixpath; on Windows the
    same for the drive-less relative components used here). *)
Definition join (sep : ascii) (a b : string) : string :=
  if PyStr.starts_with_char sep b then b
  else if bool_decide (a = "") || PyStr.ends_with_char sep a then a +:+ b
  else a +:+ String sep b.

End OsPath.

(** The f-string [f"page_{page_num}_thread_{thread_id}.png"]. *)
Definition image_name (page_num thread_id : Z) : string :=
  "page_" +:+ PyStr.str_int page_num +:+ "_thread_" +:+
  PyStr.str_int thread_id +:+ ".png".

(** [os.path.join(self.temp_dir, f"page_{page_num}_thread_{thread_id}.png")]. *)
Definition image_path (sep : ascii) (temp_dir : string)
    (page_num thread_id : Z) : string :=
  OsPath.join sep temp_dir (image_name page_num thread_id).

(** The page header [f"\n\n--- Page {i} ---\n\n"]. *)
Definition nl : string := String (ascii_of_nat 10) "".

Definition page_header (i : Z) : string :=
  nl +:+ nl +:+ "--- Page " +:+ PyStr.str_int i +:+ " ---" +:+ nl +:+ nl.

(** ** Exceptions and the state-and-exception monad *)

Inductive exn_class :=
  | TesseractNotFoundError
  | ValueError
  | OSError
  | FileNotFoundError
  | OtherException.

(** A raised Python [Exception]: its class and [str(e)]. *)
Record exn := Exn { exn_cls : exn_class; exn_str : string }.

Inductive res (A : Type) :=
  | Ret (a : A)
  | Raise (e : exn).
Arguments Ret {A} a.
Arguments Raise {A} e.

Definition M (S A : Type) : Type := S → res A * S.

#[global] Instance M_ret {S} : MRet (M S) := λ A a s, (Ret a, s).

#[global] Instance M_bind {S} : MBind (M S) := λ A B f m s,
  match m s with
  | (Ret a, s') => f a s'
  | (Raise e, s') => (Raise e, s')
  end.

Definition raise {S A} (e : exn) : M S A := λ s, (Raise e, s).

Definition get_state {S} : M S S := λ s, (Ret s, s).

Definition lift_res {S A} (r : res A) : M S A := λ s, (r, s).

(** [try: body  except Exception as e: handler(e)]. *)
Definition try_except {S A} (body : M S A) (handler : exn → M S A) : M S A :=
  λ s, match body s with
       | (Ret a, s') => (Ret a, s')
       | (Raise e, s') => handler e s'
       end.

(** ** The world: file system and standard output *)

Section Pipeline.

Context {image : Type}.

Inductive file :=
  | ImageFile (img : image)
  | TextFile (text : string).

Record world := World {
  files : gmap string file;   (* regular files, by path *)
  dirs : gset string;         (* directories, by path *)
  stdout : list string        (* printed lines, oldest first *)
}.

(** The oracles standing for the external collaborators.  A failing call
    is a raised [Exception]; [image.save] and [os.remove] fail, or not,
    depending on their arguments, and a failed [image.save] leaves no file. *)
Record Env := {
  sys_platform : string;
  environ_PATH : list string;            (* os.environ["PATH"].split(os.pathsep) *)
  which : string → option string;        (* shutil.which *)
  get_tesseract_version : res string;    (* pytesseract.get_tesseract_version() *)
  convert_from_path : string → res (list image);
  cpu_count : Z;                         (* multiprocessing.cpu_count() *)
  image_save_fault : image → string → option exn;  (* image.save(path, 'PNG') *)
  image_to_string : image → res string;  (* pytesseract.image_to_string *)
  remove_fault : string → option exn;    (* os.remove(path) *)
  open_write_fault : string → option exn;(* open(path, 'w', encoding='utf-8') *)
  elapsed : string                       (* f"{processing_time:.2f}" *)
}.

(** [PageProcessor]: [self.temp_dir] and [self.results]; the lock is the
    atomicity of [store_result]. *)
Record PageProcessor := {
  temp_dir : string;
  results : gmap Z string
}.

Record state := State {
  self : PageProcessor;
  os : world
}.

Variable env : Env.

Definition is_win : bool := String.prefix "win" (sys_platform env).

Definition os_sep : ascii := if is_win then ascii_of_nat 92 else "/"%char.

Definition path_exists (w : world) (p : string) : bool :=
  bool_decide (is_Some (files w !! p)) || bool_decide (p ∈ dirs w).

Definition is_child (d p : string) : bool :=
  String.prefix (d +:+ String os_sep "") p.

Definition entries (w : world) : gset string := dom (files w) ∪ dirs w.

Definition dir_is_empty (w : world) (d : string) : bool :=
  bool_decide (set_Forall (λ p, is_child d p = false) (entries w)).

Definition print (line : string) : M world unit := λ w,
  (Ret (), World (files w) (dirs w) (stdout w ++ [line])).

Definition os_makedirs (d : string) : M world unit := λ w,
  (Ret (), World (files w) ({[d]} ∪ dirs w) (stdout w)).

(** [os.rmdir(d)]: only an existing, empty directory can be removed. *)
Definition os_rmdir (d : string) : M world unit := λ w,
  if bool_decide (d ∈ dirs w) && dir_is_empty w d
  then (Ret (), World (files w) (dirs w ∖ {[d]}) (stdout w))
  else (Raise (Exn OSError ("cannot remove directory: " +:+ d)), w).

(** [image.save(path, 'PNG')]. *)
Definition image_save (img : image) (path : string) : M world unit := λ w,
  match image_save_fault env img path with
  | Some e => (Raise e, w)
  | None => (Ret (), World (<[path := ImageFile img]> (files w)) (dirs w) (stdout w))
  end.

(** [pytesseract.image_to_string(Image.open(path))]. *)
Definition ocr_file (path : string) : M world string := λ w,
  match files w !! path with
  | Some (ImageFile img) => (image_to_string env img, w)
  | Some (TextFile _) =>
      (Raise (Exn OtherException ("cannot identify image file " +:+ path)), w)
  | None => (Raise (Exn FileNotFoundError ("No such file or directory: " +:+ path)), w)
  end.

(** [os.remove(path)]. *)
Definition os_remove (path : string) : M world unit := λ w,
  match remove_fault env path with
  | Some e => (Raise e, w)
  | None =>
      match files w !! path with
      | Some _ => (Ret (), World (delete path (files w)) (dirs w) (stdout w))
      | None => (Raise (Exn FileNotFoundError ("No such file or directory: " +:+ path)), w)
      end
  end.

(** [with open(path, 'w', encoding='utf-8') as f: f.write(text)]. *)
Definition write_text (path text : string) : M world unit := λ w,
  match open_write_fault env path with
  | Some e => (Raise e, w)
  | None => (Ret (), World (<[path := TextFile text]> (files w)) (dirs w) (stdout w))
  end.

(** Running a world action from code that also holds the processor. *)
Definition in_world {A} (m : M world A) : M state A := λ s,
  let '(r, w') := m (os s) in (r, State (self s) w').

(** ** check_dependencies (lines 13-45) *)

Definition check_tesseract : M world bool :=
  match get_tesseract_version env with
  | Ret _ => mret true
  | Raise e =>
      match exn_cls e with
      | TesseractNotFoundError =>
          print "Error: Tesseract is not installed or not in PATH.";;
          print "For Windows: Download and install from GitHub releases";;
          print "For Ubuntu/Debian: sudo apt-get install tesseract-ocr";;
          print "For macOS: brew install tesseract";;
          mret false
      | _ => raise e
      end
  end.

Definition check_dependencies : M world bool :=
  if is_win then
    w ← get_state;
    if negb (existsb (λ path, path_exists w (OsPath.join os_sep path "pdftoppm.exe"))
               (environ_PATH env))
    then
      print "Error: poppler-utils is not installed or not in PATH.";;
      print "Please download poppler for Windows from:";;
      print "https://github.com/oschwartz10612/poppler-windows/releases/";;
      print "Extract it and add the 'bin' directory to your PATH.";;
      mret false
    else check_tesseract
  else
    match which env "pdftoppm" with
    | None =>
        print "Error: poppler-utils is not installed.";;
        print "For Ubuntu/Debian: sudo apt-get install poppler-utils";;
        print "For macOS: brew install poppler";;
        mret false
    | Some _ => check_tesseract
    end.

(** ** PageProcessor.process_page (lines 53-80) *)

(** [with self.lock: self.results[page_num] = page_text; print(...)]: one
    atomic action, since the lock is held for the whole block. *)
Definition store_result (page_num : Z) (page_text : string) : M state unit := λ s,
  in_world (print ("Completed page " +:+ PyStr.str_int page_num))
    (State {| temp_dir := temp_dir (self s);
              results := <[page_num := page_text]> (results (self s)) |} (os s)).

(** The handler of line 78. *)
Definition page_failed {A} (page_num : Z) (ret : Z * string → A) (e : exn) : M state A :=
  in_world (print ("Error processing page " +:+ PyStr.str_int page_num +:+ ": "
                   +:+ exn_str e));;
  mret (ret (page_num, "")).

(** [process_page(self, args)] run by the thread whose
    [threading.get_ident()] is [ident]. *)
Definition process_page (ident : Z) (args : Z * image) : M state (Z * string) :=
  let '(page_num, image) := args in
  try_except
    (s ← get_state;
     let thread_id := ident in
     let image_path := image_path os_sep (temp_dir (self s)) page_num thread_id in
     in_world (image_save image image_path);;
     page_text ← in_world (ocr_file image_path);
     in_world (os_remove image_path);;
     store_result page_num page_text;;
     mret (page_num, page_text))
    (page_failed page_num id).

(** ** The worker pool (lines 127-140)

    Each submitted call of [process_page] is a task.  A task advances by
    atomic actions: persisting the image, the OCR call, removing the file,
    and the locked update of the results.  The program counter records which
    action is next, with the local variables that are live there. *)

Inductive task_pc :=
  | Pending                                        (* submitted, not started *)
  | Saved (image_path : string)                    (* before line 66 *)
  | Scanned (image_path : string) (page_text : string)   (* before line 69 *)
  | Removed (page_text : string)                   (* before line 72 *)
  | Done (r : Z * string).                         (* returned *)

#[global] Instance task_pc_eq_dec : EqDecision task_pc.
Proof. solve_decision. Defined.

Definition task_action (ident : Z) (args : Z * image) (pc : task_pc) : M state task_pc :=
  let '(page_num, image) := args in
  match pc with
  | Pending =>
      s ← get_state;
      let image_path := image_path os_sep (temp_dir (self s)) page_num ident in
      in_world (image_save image image_path);;
      mret (Saved image_path)
  | Saved image_path =>
      page_text ← in_world (ocr_file image_path);
      mret (Scanned image_path page_text)
  | Scanned image_path page_text =>
      in_world (os_remove image_path);;
      mret (Removed page_text)
  | Removed page_text =>
      store_result page_num page_text;;
      mret (Done (page_num, page_text))
  | Done r => mret (Done r)
  end.

(** One atomic action of a task, inside the [try] of [process_page]. *)
Definition task_step (ident : Z) (args : Z * image) (pc : task_pc) : M state task_pc :=
  try_except (task_action ident args pc) (page_failed (fst args) Done).

Definition is_busy (pc : task_pc) : bool :=
  match pc with
  | Pending | Done _ => false
  | _ => true
  end.

Definition is_pending (pc : task_pc) : bool :=
  match pc with
  | Pending => true
  | _ => false
  end.

Definition is_done (pc : task_pc) : bool :=
  match pc with
  | Done _ => true
  | _ => false
  end.

(** A schedule: which task moves next, for as long as the list lasts, and
    the identity of the thread that runs each task.  Task [i] processes page
    [i + 1] (the [enumerate] of line 131). *)
Record schedule := Schedule {
  sched_order : list nat;
  sched_ident : nat → Z
}.

(** No worker is free: [max_workers] tasks, or more, are running. *)
Definition blocked (max_workers : Z) (tasks : list task_pc) : bool :=
  negb (Z.of_nat (length (filter (λ t, is_busy t = true) tasks)) <? max_workers).

(** One scheduling decision.  A pending task starts only when fewer than
    [max_workers] tasks are running; a decision that names no task, a
    finished task, or a task that may not start, changes nothing. *)
Definition pool_step (max_workers : Z) (ident : nat → Z) (images : list image)
    (tasks : list task_pc) (i : nat) : M state (list task_pc) :=
  match tasks !! i, images !! i with
  | Some pc, Some img =>
      if is_pending pc && blocked max_workers tasks
      then mret tasks
      else pc' ← task_step (ident i) (Z.of_nat i + 1, img) pc;
           mret (<[i := pc']> tasks)
  | _, _ => mret tasks
  end.

Fixpoint run_order (max_workers : Z) (ident : nat → Z) (images : list image)
    (order : list nat) (tasks : list task_pc) : M state (list task_pc) :=
  match order with
  | [] => mret tasks
  | i :: order' =>
      tasks' ← pool_step max_workers ident images tasks i;
      run_order max_workers ident images order' tasks'
  end.

(** Leaving the [with] block joins the pool: every task still unfinished
    runs to its end.  Two passes over the tasks, four actions each, finish
    everything: the first pass drains the running tasks, the second starts
    and finishes those that were still waiting for a worker. *)
Definition stage (first n : nat) : list nat :=
  flat_map (λ i, replicate 4 i) (seq first n).

Definition join_order (n : nat) : list nat := stage 0 n ++ stage 0 n.

(** [ThreadPoolExecutor(max_workers=...)], the submissions and the join;
    returns what each task returned. *)
Definition thread_pool (max_workers : Z) (sched : schedule) (images : list image)
    : M state (list task_pc) :=
  if max_workers <=? 0
  then raise (Exn ValueError "max_workers must be greater than 0")
  else run_order max_workers (sched_ident sched) images
         (sched_order sched ++ join_order (length images))
         (replicate (length images) Pending).

(** ** extract_text_from_pdf (lines 82-166) *)

(** Lines 143-146. *)
Definition combine_results (n : Z) (results : gmap Z string) : string :=
  foldl (λ extracted_text i,
           match results !! i with
           | Some page_text => extracted_text +:+ page_header i +:+ page_text
           | None => extracted_text
           end)
        "" (seqZ 1 n).

(** Truthiness of the optional [output_file] argument. *)
Definition truthy (output_file : option string) : bool :=
  match output_file with
  | Some p => negb (bool_decide (p = ""))
  | None => false
  end.

(** Lines 116-146: the processor, the pool and the reassembly, on the
    world; the processor does not outlive the call. *)
Definition process_pages (max_threads : Z) (sched : schedule) (temp : string)
    (images : list image) : M world string := λ w,
  let processor := {| temp_dir := temp; results := ∅ |} in
  match thread_pool max_threads sched images (State processor w) with
  | (Ret _, s') =>
      (Ret (combine_results (Z.of_nat (length images)) (results (self s'))), os s')
  | (Raise e, s') => (Raise e, os s')
  end.

(** The function proper.  The clock readings of lines 104 and 152 only feed
    the line printed at 154, whose number is the oracle [elapsed].  The loop
    of lines 135-140 waits for the futures; [future.result()] re-raises what
    the task raised, and a task never raises, so the loop prints nothing and
    is part of the join in [thread_pool]. *)
Definition extract_text_from_pdf (sched : schedule) (pdf_path : string)
    (output_file : option string) (max_threads : option Z) : M world (option string) :=
  try_except
    (ok ← check_dependencies;
     if negb ok then mret None else
     w ← get_state;
     if negb (path_exists w pdf_path) then
       print ("Error: PDF file not found: " +:+ pdf_path);;
       mret None
     else
     print ("Converting PDF to images: " +:+ pdf_path);;
     images ← lift_res (convert_from_path env pdf_path);
     print ("Found " +:+ PyStr.str_int (Z.of_nat (length images)) +:+ " pages");;
     let temp_dir := "temp_ocr_images" in
     w ← get_state;
     (if negb (path_exists w temp_dir) then os_makedirs temp_dir else mret ());;
     let max_threads :=
       match max_threads with
       | None => cpu_count env
       | Some n => n
       end in
     print ("Processing with " +:+ PyStr.str_int max_threads +:+ " threads");;
     extracted_text ← process_pages max_threads sched temp_dir images;
     os_rmdir temp_dir;;
     print (nl +:+ "Processing completed in " +:+ elapsed env +:+ " seconds");;
     (if truthy output_file then
        let path := default "" output_file in
        write_text path extracted_text;;
        print ("Extracted text saved to: " +:+ path)
      else mret ());;
     mret (Some extracted_text))
    (λ e, print ("An error occurred: " +:+ exn_str e);; mret None).

End Pipeline.

Arguments Env image : clear implicits.
Arguments world image : clear implicits.
Arguments state image : clear implicits.
Arguments file image : clear implicits.

(** ** Notions used to state the properties *)

Section Outcomes.

Context {image : Type}.
Variable env : Env image.

(** What the three external calls of one page task yield, in the order
    [process_page] makes them: persist to [path], OCR, remove [path]. *)
Definition page_attempt (path : string) (img : image) : res string :=
  match image_save_fault env img path with
  | Some e => Raise e
  | None =>
      match image_to_string env img with
      | Raise e => Raise e
      | Ret page_text =>
          match remove_fault env path with
          | Some e => Raise e
          | None => Ret page_text
          end
      end
  end.

(** The task wrote its transient file and then failed. *)
Definition leaves_file (path : string) (img : image) : bool :=
  match image_save_fault env img path, page_attempt path img with
  | None, Raise _ => true
  | _, _ => false
  end.

(** The entry of the results that a task ends with. *)
Definition recorded (path : string) (img : image) : option string :=
  match page_attempt path img with
  | Ret page_text => Some page_text
  | Raise _ => None
  end.

(** The four atomic actions of a task, one after the other. *)
Definition run_task (ident : Z) (args : Z * image) : M (state image) task_pc :=
  pc1 ← task_step env ident args Pending;
  pc2 ← task_step env ident args pc1;
  pc3 ← task_step env ident args pc2;
  task_step env ident args pc3.

(** The working directory of [extract_text_from_pdf]. *)
Definition work_dir : string := "temp_ocr_images".

(** Nothing occupies the working directory: no entry of the file system
    lies under it, and no regular file has its name. *)
Definition work_dir_clean (w : world image) : Prop :=
  files w !! work_dir = None ∧ dir_is_empty env w work_dir = true.

(** The number of workers the pool is created with. *)
Definition pool_size (max_threads : option Z) : Z :=
  match max_threads with
  | None => cpu_count env
  | Some n => n
  end.

(** Lines 109-162 of [extract_text_from_pdf]: what follows the
    rasterization, inside the [try]. *)
Definition pipeline (sched : schedule) (output_file : option string)
    (max_threads : option Z) (images : list image) : M (world image) (option string) :=
  print ("Found " +:+ PyStr.str_int (Z.of_nat (length images)) +:+ " pages");;
  w ← get_state;
  (if negb (path_exists w work_dir) then os_makedirs work_dir else mret ());;
  print ("Processing with " +:+ PyStr.str_int (pool_size max_threads) +:+ " threads");;
  extracted_text ← process_pages env (pool_size max_threads) sched work_dir images;
  os_rmdir env work_dir;;
  print (nl +:+ "Processing completed in " +:+ elapsed env +:+ " seconds");;
  (if truthy output_file then
     let path := default "" output_file in
     write_text env path extracted_text;;
     print ("Extracted text saved to: " +:+ path)
   else mret ());;
  mret (Some extracted_text).

(** The world when the pool is created: lines 109-124 have run. *)
Definition prepared (max_threads : option Z) (images : list image)
    (w : world image) : world image :=
  let w1 :=
    (print ("Found " +:+ PyStr.str_int (Z.of_nat (length images)) +:+ " pages") w).2 in
  let w2 :=
    if negb (path_exists w1 work_dir) then (os_makedirs work_dir w1).2 else w1 in
  (print ("Processing with " +:+ PyStr.str_int (pool_size max_threads) +:+ " threads")
         w2).2.

(** Lines 148-162: what follows the reassembly. *)
Definition finish_run (output_file : option string) (extracted_text : string)
    : M (world image) (option string) :=
  os_rmdir env work_dir;;
  print (nl +:+ "Processing completed in " +:+ elapsed env +:+ " seconds");;
  (if truthy output_file then
     let path := default "" output_file in
     write_text env path extracted_text;;
     print ("Extracted text saved to: " +:+ path)
   else mret ());;
  mret (Some extracted_text).

(** The handler of line 164. *)
Definition run_failed (e : exn) : M (world image) (option string) :=
  print ("An error occurred: " +:+ exn_str e);; mret None.

End Outcomes.

(** The line that reports the failure of a page (line 79). *)
Definition failure_line (page_num : Z) (e : exn) : string :=
  "Error processing page " +:+ PyStr.str_int page_num +:+ ": " +:+ exn_str e.

(** The progress line of a page (line 74). *)
Definition completed_line (page_num : Z) : string :=
  "Completed page " +:+ PyStr.str_int page_num.

(** The characters of a decimal numeral, as [str] prints it. *)
Definition numeral_char (c : ascii) : Prop :=
  c ∈ ["0"; "1"; "2"; "3"; "4"; "5"; "6"; "7"; "8"; "9"; "-"]%char.

(** ** The invariant of the pool *)

Section PoolState.

Context {image : Type}.
Variable env : Env image.
Variables (ident : nat → Z) (images : list image) (dir : string).
Variables (files0 : gmap string (file image)) (dirs0 : gset string).

(** Task [i] processes page [i + 1] ... *)
Definition page_of (i : nat) : Z := Z.of_nat i + 1.

(** ... through this transient file. *)
Definition path_of (i : nat) : string :=
  image_path (os_sep env) dir (page_of i) (ident i).

(** What is known of the world when task [i] is at [pc]. *)
Definition task_ok (i : nat) (img : image) (pc : task_pc) (s : state image) : Prop :=
  match pc with
  | Pending => results (self s) !! page_of i = None
  | Saved path =>
      path = path_of i ∧ image_save_fault env img path = None ∧
      files (os s) !! path = Some (ImageFile img) ∧
      results (self s) !! page_of i = None
  | Scanned path page_text =>
      path = path_of i ∧ image_save_fault env img path = None ∧
      image_to_string env img = Ret page_text ∧
      files (os s) !! path = Some (ImageFile img) ∧
      results (self s) !! page_of i = None
  | Removed page_text =>
      page_attempt env (path_of i) img = Ret page_text ∧
      results (self s) !! page_of i = None
  | Done r =>
      r = (page_of i, default "" (recorded env (path_of i) img)) ∧
      results (self s) !! page_of i = recorded env (path_of i) img ∧
      (leaves_file env (path_of i) img = true →
       files (os s) !! path_of i = Some (ImageFile img))
  end.

(** Task [i] at [pc] accounts for its transient file. *)
Definition holds (i : nat) (img : image) (pc : task_pc) : bool :=
  match pc with
  | Saved _ | Scanned _ _ => true
  | Done _ => leaves_file env (path_of i) img
  | Pending | Removed _ => false
  end.

Record pool_inv (tasks : list task_pc) (s : state image) : Prop := {
  inv_length : length tasks = length images;
  inv_dir : temp_dir (self s) = dir;
  inv_dirs : dirs (os s) = dirs0;
  inv_tasks : ∀ i pc img,
    tasks !! i = Some pc → images !! i = Some img → task_ok i img pc s;
  inv_files : ∀ f x,
    files (os s) !! f = Some x →
    files0 !! f = Some x ∨
    ∃ i pc img, tasks !! i = Some pc ∧ images !! i = Some img ∧
                holds i img pc = true ∧ f = path_of i;
  inv_frame : ∀ f,
    (∀ i, (i < length images)%nat → f ≠ path_of i) →
    files (os s) !! f = files0 !! f;
  inv_keys : ∀ q,
    (∀ i, (i < length images)%nat → q ≠ page_of i) →
    results (self s) !! q = None
}.

End PoolState.

(** How many actions a task still has to take. *)
Definition rank (pc : task_pc) : nat :=
  match pc with
  | Pending => 4
  | Saved _ => 3
  | Scanned _ _ => 2
  | Removed _ => 1
  | Done _ => 0
  end.

(** No task is running. *)
Definition idle (tasks : list task_pc) : Prop :=
  Forall (λ pc, is_busy pc = false) tasks.

(** The recorded pages among [pages], in that order. *)
Definition present (results : gmap Z string) (pages : list Z) : list (Z * string) :=
  omap (λ i, pair i <$> results !! i) pages.

(** One section of the document: the header of the page, then its text. *)
Definition page_section (s : Z * string) : string := page_header s.1 +:+ s.2.

(** The sections in the order given. *)
Definition document (sections : list (Z * string)) : string :=
  foldr (λ s rest, page_section s +:+ rest) "" sections.

(** The results after the assignments [results[p] = t], made in the order
    of the list. *)
Definition store_of (inserts : list (Z * string)) : gmap Z string :=
  foldl (λ results '(p, t), <[p := t]> results) ∅ inserts.

(** The run-level failures of the error taxonomy. *)
Inductive run_failure :=
  | PreflightError
  | InputError
  | RasterizationError (e : exn).

Section Failures.

Context {image : Type}.
Variable env : Env image.

(** When each run-level failure occurs. *)
Definition occurs (w : world image) (pdf_path : string) (f : run_failure) : Prop :=
  match f with
  | PreflightError => (check_dependencies env w).1 = Ret false
  | InputError =>
      (check_dependencies env w).1 = Ret true ∧ path_exists w pdf_path = false
  | RasterizationError e =>
      (check_dependencies env w).1 = Ret true ∧ path_exists w pdf_path = true ∧
      convert_from_path env pdf_path = Raise e
  end.

(** What is printed after the preflight when the run aborts. *)
Definition abort_lines (pdf_path : string) (f : run_failure) : list string :=
  match f with
  | PreflightError => []
  | InputError => ["Error: PDF file not found: " +:+ pdf_path]
  | RasterizationError e =>
      ["Converting PDF to images: " +:+ pdf_path;
       "An error occurred: " +:+ exn_str e]
  end.

End Failures.

(** ** Concrete environments, used to exercise the statements *)

Module Demo.

(** Images are stood for by the text printed on them; a page showing
    [smudge] cannot be read. *)
Definition smudge : string := "~~~".

Definition ocr (img : string) : res string :=
  if bool_decide (img = smudge)
  then Raise (Exn OtherException "tesseract failed")
  else Ret img.

Definition env (pages : list string) : Env string := {|
  sys_platform := "linux";
  environ_PATH := ["/usr/bin"];
  which := λ _, Some "/usr/bin/pdftoppm";
  get_tesseract_version := Ret "5.3.0";
  convert_from_path := λ p,
    if bool_decide (p = "broken.pdf")
    then Raise (Exn OtherException "Unable to get page count.")
    else Ret pages;
  cpu_count := 4;
  image_save_fault := λ _ _, None;
  image_to_string := ocr;
  remove_fault := λ _, None;
  open_write_fault := λ _, None;
  elapsed := "0.42"
|}.

(** The same machine without tesseract. *)
Definition env_no_tesseract : Env string := {|
  sys_platform := "linux";
  environ_PATH := ["/usr/bin"];
  which := λ _, Some "/usr/bin/pdftoppm";
  get_tesseract_version := Raise (Exn TesseractNotFoundError "tesseract is not installed");
  convert_from_path := λ _, Ret [];
  cpu_count := 4;
  image_save_fault := λ _ _, None;
  image_to_string := ocr;
  remove_fault := λ _, None;
  open_write_fault := λ _, None;
  elapsed := "0.42"
|}.

(** A file system holding the input PDF and an earlier output. *)
Definition w0 : world string :=
  World {[ "in.pdf" := TextFile "%PDF-1.7"; "broken.pdf" := TextFile "";
           "out.txt" := TextFile "old" ]} ∅ [].

(** Page 3 starts first and page 1 overtakes page 2. *)
Definition sched : schedule :=
  Schedule [2%nat; 0%nat; 2%nat; 0%nat; 0%nat; 1%nat; 0%nat; 2%nat]
           (λ i, 7000 + Z.of_nat i).

(** A three-page document whose second page cannot be read. *)
Definition three_pages : list string := ["A"; smudge; "C"].

(** The working directory exists and is empty. *)
Definition w_dir : world string := World ∅ {[ work_dir ]} [].

(** A fresh processor in that world. *)
Definition state0 : state string :=
  State {| temp_dir := work_dir; results := ∅ |} w_dir.

End Demo.

(** ** main (lines 168-182) *)

(** The namespace that [parser.parse_args()] returns. *)
Module Args.

Record t := Make {
  pdf_path : string;
  output : option string;      (* --output / -o *)
  threads : option Z           (* --threads / -t, type=int *)
}.

End Args.

Section Main.

Context {image : Type}.
Variable env : Env image.

(** [main()] from line 177 on, for the arguments parsed at line 175. *)
Definition main (sched : schedule) (args : Args.t) : M (world image) unit :=
  extracted_text ←
    extract_text_from_pdf env sched (Args.pdf_path args) (Args.output args)
      (Args.threads args);
  if truthy extracted_text && negb (truthy (Args.output args)) then
    print (nl +:+ "Extracted Text:");;
    print (default "" extracted_text)
  else mret ().

(** ** Further notions *)

(** The probe for poppler of lines 18-33. *)
Definition poppler_found (w : world image) : bool :=
  if is_win env then
    existsb (λ path, path_exists w (OsPath.join (os_sep env) path "pdftoppm.exe"))
      (environ_PATH env)
  else bool_decide (is_Some (which env "pdftoppm")).

(** What [main] prints after the extraction. *)
Definition text_block (extracted_text output : option string) : list string :=
  if truthy extracted_text && negb (truthy output)
  then [nl +:+ "Extracted Text:"; default "" extracted_text]
  else [].

(** The number of running tasks. *)
Definition running (tasks : list task_pc) : nat :=
  length (filter (λ t, is_busy t = true) tasks).

Variables (ident : nat → Z) (images : list image) (dir : string).

(** What the results hold for key [q] once the pool has joined: the text of
    page [q] when its task succeeded. *)
Definition outcome (q : Z) : option string :=
  if bool_decide (1 ≤ q) then
    img ← images !! Z.to_nat (q - 1);
    recorded env (path_of env ident dir (Z.to_nat (q - 1))) img
  else None.

(** The sections of the pages that succeeded, in page order. *)
Definition recorded_sections : list (Z * string) :=
  omap (λ q, pair q <$> outcome q) (seqZ 1 (Z.of_nat (length images))).

End Main.

(** The preflight prerequisites of a run on [pdf_path] that reaches the
    pool with at least one worker. *)
Definition reaches_pool {image : Type} (env : Env image) (w : world image)
    (pdf_path : string) (max_threads : option Z) (images : list image) : Prop :=
  (check_dependencies env w).1 = Ret true ∧
  path_exists w pdf_path = true ∧
  convert_from_path env pdf_path = Ret images ∧
  0 < pool_size env max_threads.

(** ** What the pool prints *)

Section Reporting.
Context {image : Type}.
Variable env : Env image.
Variables (ident : nat → Z) (images : list image) (dir : string).

(** The line by which the task of page [i + 1] reports its end. *)
Definition page_report (i : nat) : string :=
  match images !! i with
  | Some img =>
      match page_attempt env (path_of env ident dir i) img with
      | Ret _ => completed_line (page_of i)
      | Raise e => failure_line (page_of i) e
      end
  | None => ""
  end.

(** The pool has printed the reports of the finished tasks, in the order
    in which they finished. *)
Definition log_inv (stdout0 : list string) (tasks : list task_pc) (s : state image) : Prop :=
  ∃ finished : list nat,
    NoDup finished ∧
    (∀ i, i ∈ finished ↔ ∃ r, tasks !! i = Some (Done r)) ∧
    stdout (os s) = (stdout0 ++ (page_report <$> finished))%list.
End Reporting.

(** ** More concrete environments *)

Module Sample.

(** A Windows machine with poppler in the second PATH entry. *)
Definition env_win : Env string := {|
  sys_platform := "win32";
  environ_PATH := ["C:" +:+ String (ascii_of_nat 92) "Windows";
                   "C:" +:+ String (ascii_of_nat 92) "poppler"];
  which := λ _, None;
  get_tesseract_version := Ret "5.3.0";
  convert_from_path := λ _, Ret ["A"];
  cpu_count := 8;
  image_save_fault := λ _ _, None;
  image_to_string := Demo.ocr;
  remove_fault := λ _, None;
  open_write_fault := λ _, None;
  elapsed := "0.10"
|}.

Definition w_win : world string :=
  World {[ "C:" +:+ String (ascii_of_nat 92) "poppler" +:+ String (ascii_of_nat 92)
             "pdftoppm.exe" := TextFile "MZ";
           "in.pdf" := TextFile "%PDF-1.7" ]} ∅ [].

(** Tesseract is there but its version query breaks. *)
Definition env_broken_tesseract : Env string := {|
  sys_platform := "linux";
  environ_PATH := ["/usr/bin"];
  which := λ _, Some "/usr/bin/pdftoppm";
  get_tesseract_version := Raise (Exn OSError "Permission denied: tesseract");
  convert_from_path := λ _, Ret ["A"];
  cpu_count := 4;
  image_save_fault := λ _ _, None;
  image_to_string := Demo.ocr;
  remove_fault := λ _, None;
  open_write_fault := λ _, None;
  elapsed := "0.10"
|}.

(** The output file cannot be opened; the disk is full for page 2. *)
Definition env_faulty (pages : list string) : Env string := {|
  sys_platform := "linux";
  environ_PATH := ["/usr/bin"];
  which := λ _, Some "/usr/bin/pdftoppm";
  get_tesseract_version := Ret "5.3.0";
  convert_from_path := λ _, Ret pages;
  cpu_count := 4;
  image_save_fault := λ img _,
    if bool_decide (img = "B") then Some (Exn OSError "No space left on device") else None;
  image_to_string := Demo.ocr;
  remove_fault := λ _, None;
  open_write_fault := λ p,
    if bool_decide (p = "/readonly.txt") then Some (Exn OSError "Read-only file system")
    else None;
  elapsed := "0.10"
|}.

(** Two inputs: a document whose second page cannot be read, and a sound one. *)
Definition env_two_pdfs : Env string := {|
  sys_platform := "linux";
  environ_PATH := ["/usr/bin"];
  which := λ _, Some "/usr/bin/pdftoppm";
  get_tesseract_version := Ret "5.3.0";
  convert_from_path := λ p,
    if bool_decide (p = "bad.pdf") then Ret ["A"; Demo.smudge] else Ret ["A"; "B"];
  cpu_count := 4;
  image_save_fault := λ _ _, None;
  image_to_string := Demo.ocr;
  remove_fault := λ _, None;
  open_write_fault := λ _, None;
  elapsed := "0.10"
|}.

Definition w_two_pdfs : world string :=
  World {[ "bad.pdf" := TextFile "%PDF-1.7"; "good.pdf" := TextFile "%PDF-1.7" ]} ∅ [].

(** The working directory was left behind, with a file, by an earlier run. *)
Definition w_stale : world string :=
  World {[ "in.pdf" := TextFile "%PDF-1.7";
           "temp_ocr_images/page_2_thread_41.png" := ImageFile Demo.smudge ]}
        {[ work_dir ]} [].

End Sample.

(** * Properties *)

(** ** Strings and paths *)

Section StringFacts.

Lemma append_cons a s t : String a s +:+ t = String a (s +:+ t).
Proof. reflexivity. Qed.

Lemma append_empty_l t : "" +:+ t = t.
Proof. reflexivity. Qed.

Lemma append_assoc s t u : (s +:+ t) +:+ u = s +:+ (t +:+ u).
Proof. induction s as [|a s IH]; [done|]. by rewrite !append_cons, IH. Qed.

Lemma append_empty_r s : s +:+ "" = s.
Proof. induction s as [|a s IH]; [done|]. by rewrite append_cons, IH. Qed.

Lemma append_inv_head s t u : s +:+ t = s +:+ u → t = u.
Proof.
  induction s as [|a s IH]; [done|].
  rewrite !append_cons. intros [= H]. by apply IH.
Qed.

Lemma prefix_append s t : String.prefix s (s +:+ t) = true.
Proof.
  induction s as [|a s IH]; [by destruct t|].
  rewrite append_cons. simpl. by destruct (Ascii.ascii_dec a a).
Qed.

(** A string is split in only one way at the first occurrence of [c]. *)
Lemma append_split_char c s1 r1 s2 r2 :
  PyStr.has_char c s1 = false → PyStr.has_char c s2 = false →
  s1 +:+ String c r1 = s2 +:+ String c r2 → s1 = s2 ∧ r1 = r2.
Proof.
  revert s2. induction s1 as [|a s1 IH]; intros [|b s2]; simpl.
  - intros _ _ [= ->]. done.
  - intros _ Hb. rewrite append_empty_l, append_cons. intros [= <- _].
    apply orb_false_iff in Hb as [Hb _]. by case_bool_decide.
  - intros Ha _. rewrite append_empty_l, append_cons. intros [= -> _].
    apply orb_false_iff in Ha as [Ha _]. by case_bool_decide.
  - intros [_ Ha]%orb_false_iff [_ Hb]%orb_false_iff.
    rewrite !append_cons. intros [= -> H].
    destruct (IH _ Ha Hb H) as [-> ->]. done.
Qed.

Lemma str_int_inj a b : PyStr.str_int a = PyStr.str_int b → a = b.
Proof.
  unfold PyStr.str_int. intros H.
  apply DecimalZ.to_int_inj.
  assert (Some (Z.to_int a) = Some (Z.to_int b)) as [= ->]; [|done].
  by rewrite <- !NilEmpty.isi, H.
Qed.

Lemma has_char_uint c d :
  ¬ numeral_char c → PyStr.has_char c (NilEmpty.string_of_uint d) = false.
Proof.
  intros Hc. induction d; simpl; [done|..]; rewrite IHd, orb_false_r;
    apply bool_decide_eq_false; intros <-; apply Hc;
    unfold numeral_char; rewrite !elem_of_cons; auto 20.
Qed.

Lemma has_char_str_int c z :
  ¬ numeral_char c → PyStr.has_char c (PyStr.str_int z) = false.
Proof.
  intros Hc. unfold PyStr.str_int.
  destruct (Z.to_int z) as [d|d]; simpl; [by apply has_char_uint|].
  rewrite has_char_uint by done. rewrite orb_false_r.
  apply bool_decide_eq_false. intros <-. apply Hc.
  unfold numeral_char. rewrite !elem_of_cons. auto 20.
Qed.

Lemma not_numeral_underscore : ¬ numeral_char "_".
Proof. unfold numeral_char. rewrite list_elem_of_In. simpl. intuition discriminate. Qed.

Lemma not_numeral_dot : ¬ numeral_char ".".
Proof. unfold numeral_char. rewrite list_elem_of_In. simpl. intuition discriminate. Qed.

Lemma image_name_inj p1 t1 p2 t2 :
  image_name p1 t1 = image_name p2 t2 → p1 = p2 ∧ t1 = t2.
Proof.
  unfold image_name. intros H.
  apply (append_inv_head "page_") in H.
  change ("_thread_" +:+ ?x) with (String "_" ("thread_" +:+ x)) in H.
  apply append_split_char in H as [Hp H];
    [|by apply has_char_str_int, not_numeral_underscore..].
  apply (append_inv_head "thread_") in H.
  change ".png" with (String "." "png") in H.
  apply append_split_char in H as [Ht _];
    [|by apply has_char_str_int, not_numeral_dot..].
  split; by apply str_int_inj.
Qed.

Lemma image_name_starts sep p t :
  PyStr.starts_with_char sep (image_name p t) = bool_decide ("p"%char = sep).
Proof. reflexivity. Qed.

Lemma join_inj sep a b1 b2 :
  PyStr.starts_with_char sep b1 = PyStr.starts_with_char sep b2 →
  OsPath.join sep a b1 = OsPath.join sep a b2 → b1 = b2.
Proof.
  unfold OsPath.join. intros <-.
  destruct (PyStr.starts_with_char sep b1); [done|].
  destruct (_ || _).
  - apply append_inv_head.
  - intros H%append_inv_head. by injection H.
Qed.

Lemma image_path_inj sep dir p1 t1 p2 t2 :
  image_path sep dir p1 t1 = image_path sep dir p2 t2 → p1 = p2 ∧ t1 = t2.
Proof.
  unfold image_path. intros H%join_inj; [by apply image_name_inj|].
  by rewrite !image_name_starts.
Qed.

End StringFacts.

(** ** One call of process_page *)

Section PageTask.

Context {image : Type}.
Variable env : Env image.

Lemma process_page_spec ident p img (s : state image) :
  let path := image_path (os_sep env) (temp_dir (self s)) p ident in
  let w := os s in
  process_page env ident (p, img) s =
  match image_save_fault env img path with
  | Some e =>
      (Ret (p, ""),
       State (self s) (World (files w) (dirs w) (stdout w ++ [failure_line p e])))
  | None =>
      let saved := <[path := ImageFile img]> (files w) in
      match page_attempt env path img with
      | Raise e =>
          (Ret (p, ""),
           State (self s) (World saved (dirs w) (stdout w ++ [failure_line p e])))
      | Ret page_text =>
          (Ret (p, page_text),
           State {| temp_dir := temp_dir (self s);
                    results := <[p := page_text]> (results (self s)) |}
                 (World (delete path saved) (dirs w)
                        (stdout w ++ [completed_line p])))
      end
  end.
Proof.
  destruct s as [[dir rs] [fs ds out]]. simpl.
  unfold process_page, page_attempt, try_except, mbind, M_bind, get_state,
    in_world, image_save, ocr_file, os_remove, store_result, page_failed; simpl.
  destruct (image_save_fault env img _) as [e|] eqn:Hsave; simpl; [done|].
  rewrite lookup_insert_eq.
  destruct (image_to_string env img) as [text|e]; simpl; [|done].
  destruct (remove_fault env _) as [e|]; simpl; [done|].
  rewrite lookup_insert_eq. done.
Qed.

Lemma run_task_process_page ident args (s : state image) :
  run_task env ident args s =
  match process_page env ident args s with
  | (Ret r, s') => (Ret (Done r), s')
  | (Raise e, s') => (Raise e, s')
  end.
Proof.
  destruct args as [p img]. destruct s as [[dir rs] [fs ds out]].
  unfold run_task, process_page, task_step, task_action, try_except, mbind, M_bind, get_state,
    in_world, image_save, ocr_file, os_remove, store_result, page_failed; simpl.
  destruct (image_save_fault env img _) as [e|] eqn:Hsave; simpl; [done|].
  rewrite lookup_insert_eq.
  destruct (image_to_string env img) as [text|e] eqn:Hocr; simpl; [|done].
  destruct (remove_fault env _) as [e|] eqn:Hrm; simpl; [done|].
  rewrite lookup_insert_eq. done.
Qed.
End PageTask.

(** ** The invariant is kept by every scheduling decision *)

Section PoolInvariant.

Context {image : Type}.
Variable env : Env image.
Variables (ident : nat → Z) (images : list image) (dir : string).
Variables (files0 : gmap string (file image)) (dirs0 : gset string).

Local Abbreviation path_of := (path_of env ident dir).
Local Abbreviation task_ok := (task_ok env ident dir).
Local Abbreviation holds := (holds env ident dir).
Local Abbreviation pool_inv := (pool_inv env ident images dir files0 dirs0).

Lemma path_of_inj i j : path_of i = path_of j → i = j.
Proof.
  unfold path_of, page_of. intros [H _]%image_path_inj. lia.
Qed.

Lemma page_of_inj i j : page_of i = page_of j → i = j.
Proof. unfold page_of. lia. Qed.

Lemma task_ok_frame i img pc s s' :
  files (os s') !! path_of i = files (os s) !! path_of i →
  results (self s') !! page_of i = results (self s) !! page_of i →
  task_ok i img pc s → task_ok i img pc s'.
Proof.
  intros Hf Hr. destruct pc; simpl; rewrite ?Hr; try done.
  - intros (-> & ? & ? & ?). by rewrite Hf.
  - intros (-> & ? & ? & ? & ?). by rewrite Hf.
  - intros (? & ? & ?). by rewrite Hf.
Qed.

Lemma task_step_effect i img pc s :
  temp_dir (self s) = dir → task_ok i img pc s →
  ∃ pc' s',
    task_step env (ident i) (page_of i, img) pc s = (Ret pc', s') ∧
    task_ok i img pc' s' ∧
    temp_dir (self s') = dir ∧
    dirs (os s') = dirs (os s) ∧
    (∀ f, f ≠ path_of i → files (os s') !! f = files (os s) !! f) ∧
    (∀ q, q ≠ page_of i → results (self s') !! q = results (self s) !! q) ∧
    (∀ x, files (os s') !! path_of i = Some x →
          holds i img pc' = true ∨
          (holds i img pc = false ∧ files (os s) !! path_of i = Some x)).
Proof.
  destruct s as [[d rs] [fs ds out]]. simpl. intros -> Hok.
  unfold task_step, try_except, task_action.
  destruct pc as [|path|path text|text|r]; simpl in Hok.
  - (* Pending *)
    unfold mbind, M_bind, get_state, in_world, image_save, page_failed; simpl.
    fold (path_of i).
    destruct (image_save_fault env img (path_of i)) as [e|] eqn:Hsave; simpl.
    + eexists _, _. split; [done|]. simpl.
      unfold recorded, leaves_file, page_attempt. rewrite Hsave. simpl.
      repeat split; auto. done.
    + eexists _, _. split; [done|]. simpl.
      rewrite lookup_insert_eq.
      repeat split; auto.
      intros f Hf. by rewrite lookup_insert_ne.
  - (* Saved *)
    destruct Hok as (-> & Hsave & Hfile & Hres).
    unfold mbind, M_bind, in_world, ocr_file, page_failed; simpl.
    rewrite Hfile.
    destruct (image_to_string env img) as [text|e] eqn:Hocr; simpl.
    + eexists _, _. split; [done|]. simpl. repeat split; auto.
    + eexists _, _. split; [done|]. simpl.
      unfold recorded, leaves_file, page_attempt. rewrite Hsave, Hocr. simpl.
      repeat split; auto.
  - (* Scanned *)
    destruct Hok as (-> & Hsave & Hocr & Hfile & Hres).
    unfold mbind, M_bind, in_world, os_remove, page_failed; simpl.
    destruct (remove_fault env (path_of i)) as [e|] eqn:Hrm; simpl.
    + eexists _, _. split; [done|]. simpl.
      unfold recorded, leaves_file, page_attempt. rewrite Hsave, Hocr, Hrm. simpl.
      repeat split; auto.
    + rewrite Hfile. eexists _, _. split; [done|]. simpl.
      unfold page_attempt. rewrite Hsave, Hocr, Hrm.
      repeat split; auto.
      * intros f Hf. by rewrite lookup_delete_ne.
      * intros x. by rewrite lookup_delete_eq.
  - (* Removed *)
    destruct Hok as (Hatt & Hres).
    unfold mbind, M_bind, in_world, store_result, print; simpl.
    eexists _, _. split; [done|]. simpl.
    unfold recorded, leaves_file. rewrite Hatt. rewrite lookup_insert_eq.
    repeat split; auto.
    + by destruct (image_save_fault _ _ _).
    + intros q Hq. by rewrite lookup_insert_ne.
  - (* Done *)
    unfold mret, M_ret. eexists _, _. split; [done|]. simpl.
    repeat split; try tauto.
    intros x Hx. destruct (leaves_file env (path_of i) img); auto.
Qed.


Lemma pool_step_inv mw tasks s i :
  pool_inv tasks s →
  ∃ tasks' s', pool_step env mw ident images tasks i s = (Ret tasks', s') ∧
               pool_inv tasks' s'.
Proof.
  intros Hinv. unfold pool_step.
  destruct (tasks !! i) as [pc|] eqn:Hpc; [|by eexists _, _].
  destruct (images !! i) as [img|] eqn:Himg; [|by eexists _, _].
  destruct (is_pending pc && _); [by eexists _, _|].
  destruct Hinv as [Hlen Hdir0 Hdirs0 Htasks Hheld Hframe Hkeys].
  destruct (task_step_effect i img pc s Hdir0 (Htasks _ _ _ Hpc Himg))
    as (pc' & s' & Hstep & Hok & Hdir & Hdirs & Hfiles & Hres & Hown).
  fold (page_of i). unfold mbind, M_bind. rewrite Hstep.
  eexists _, _. split; [done|].
  assert (i < length tasks)%nat as Hi by (by eapply lookup_lt_Some).
  assert (i < length images)%nat as Hi' by (by eapply lookup_lt_Some).
  split.
  - by rewrite length_insert.
  - done.
  - by rewrite Hdirs.
  - intros j pcj imgj Hj Himgj.
    destruct (decide (j = i)) as [->|Hne].
    + rewrite list_lookup_insert_eq in Hj by done. congruence.
    + rewrite list_lookup_insert_ne in Hj by done.
      eapply task_ok_frame; [| |by eapply Htasks].
      * apply Hfiles. by intros ?%path_of_inj.
      * apply Hres. by intros ?%page_of_inj.
  - intros f x Hf.
    destruct (decide (f = path_of i)) as [->|Hne].
    + destruct (Hown _ Hf) as [Hh|[Hh Hold]].
      * right. exists i, pc', img. by rewrite list_lookup_insert_eq.
      * destruct (Hheld _ _ Hold)
          as [?|(k & pck & imgk & Hk & Himgk & Hhk & Heq)]; [by left|].
        apply path_of_inj in Heq as <-. congruence.
    + rewrite Hfiles in Hf by done.
      destruct (Hheld _ _ Hf)
        as [?|(k & pck & imgk & Hk & Himgk & Hhk & ->)]; [by left|].
      right. exists k, pck, imgk. rewrite list_lookup_insert_ne; [done|].
      by intros ->.
  - intros f Hf. rewrite Hfiles by (by apply Hf). by apply Hframe.
  - intros q Hq. rewrite Hres by (by apply Hq). by apply Hkeys.
Qed.

Lemma run_order_inv mw order tasks s :
  pool_inv tasks s →
  ∃ tasks' s', run_order env mw ident images order tasks s = (Ret tasks', s') ∧
               pool_inv tasks' s'.
Proof.
  revert tasks s. induction order as [|i order IH]; intros tasks s Hinv.
  - by eexists _, _.
  - destruct (pool_step_inv mw tasks s i Hinv) as (tasks1 & s1 & Hstep & Hinv1).
    destruct (IH _ _ Hinv1) as (tasks' & s' & Hrun & Hinv').
    exists tasks', s'. split; [|done].
    simpl. unfold mbind, M_bind. by rewrite Hstep.
Qed.

End PoolInvariant.

(** ** Every task returns *)

Section Progress.

Context {image : Type}.
Variable env : Env image.
Variables (mw : Z) (ident : nat → Z) (images : list image).

Local Abbreviation run := (run_order env mw ident images).

Lemma task_step_progress tid args pc (s : state image) :
  ∃ pc' s', task_step env tid args pc s = (Ret pc', s') ∧
            ((rank pc' < rank pc)%nat ∨ pc' = pc ∧ rank pc = 0%nat).
Proof.
  destruct args as [p img]. destruct s as [[d rs] [fs ds out]].
  unfold task_step, try_except, task_action.
  destruct pc as [|path|path text|text|r];
    unfold mbind, M_bind, get_state, in_world, image_save, ocr_file,
      os_remove, store_result, page_failed, print; simpl.
  - destruct (image_save_fault _ _ _); eexists _, _; (split; [done|]); simpl; lia.
  - destruct (fs !! path) as [[img'|?]|]; [destruct (image_to_string env img')|..];
      eexists _, _; (split; [done|]); simpl; lia.
  - destruct (remove_fault _ _); [|destruct (fs !! path)];
      eexists _, _; (split; [done|]); simpl; lia.
  - eexists _, _; (split; [done|]); simpl; lia.
  - eexists _, _; (split; [done|]); simpl; auto.
Qed.

(** A decision that names no task, or a task that may not start. *)
Lemma pool_step_idle tasks (s : state image) i :
  tasks !! i = None ∨ images !! i = None ∨
    tasks !! i = Some Pending ∧ blocked mw tasks = true →
  pool_step env mw ident images tasks i s = (Ret tasks, s).
Proof.
  unfold pool_step.
  intros [->|[H|[-> ->]]]; [done| |by destruct (images !! i)].
  rewrite H. by destruct (tasks !! i).
Qed.

Lemma pool_step_moves tasks (s : state image) i pc :
  tasks !! i = Some pc → is_Some (images !! i) →
  (pc = Pending → blocked mw tasks = false) →
  ∃ pc' s', pool_step env mw ident images tasks i s = (Ret (<[i := pc']> tasks), s') ∧
            ((rank pc' < rank pc)%nat ∨ pc' = pc ∧ rank pc = 0%nat).
Proof.
  intros Hpc [img Himg] Hb. unfold pool_step. rewrite Hpc, Himg.
  destruct (task_step_progress (ident i) (Z.of_nat i + 1, img) pc s)
    as (pc' & s' & Hstep & Hrank).
  exists pc', s'. split; [|done].
  assert (is_pending pc && blocked mw tasks = false) as ->.
  { destruct pc; simpl; auto. }
  unfold mbind, M_bind. by rewrite Hstep.
Qed.

Lemma run_app order1 order2 tasks (s : state image) :
  run (order1 ++ order2) tasks s =
  match run order1 tasks s with
  | (Ret tasks', s') => run order2 tasks' s'
  | (Raise e, s') => (Raise e, s')
  end.
Proof.
  revert tasks s. induction order1 as [|i order1 IH]; intros tasks s; [done|].
  simpl. unfold mbind, M_bind.
  destruct (pool_step env mw ident images tasks i s) as [[tasks1|e] s1]; [|done].
  apply IH.
Qed.

Lemma run_cons i order tasks (s : state image) :
  run (i :: order) tasks s =
  match pool_step env mw ident images tasks i s with
  | (Ret tasks', s') => run order tasks' s'
  | (Raise e, s') => (Raise e, s')
  end.
Proof. done. Qed.

(** A pending task that may not start stays where it is. *)
Lemma run_idle k i tasks (s : state image) :
  tasks !! i = None ∨ images !! i = None ∨
    tasks !! i = Some Pending ∧ blocked mw tasks = true →
  run (replicate k i) tasks s = (Ret tasks, s).
Proof.
  intros H. induction k as [|k IH]; [done|].
  simpl replicate. by rewrite run_cons, pool_step_idle.
Qed.

(** A started task loses one rank with each of its decisions. *)
Lemma run_started k i tasks (s : state image) pc :
  tasks !! i = Some pc → is_Some (images !! i) → pc ≠ Pending →
  ∃ pc' s', run (replicate k i) tasks s = (Ret (<[i := pc']> tasks), s') ∧
            (rank pc' ≤ rank pc - k)%nat.
Proof.
  revert tasks s pc. induction k as [|k IH]; intros tasks s pc Hpc Himg Hne.
  - exists pc, s. split; [|lia]. by rewrite list_insert_id.
  - destruct (pool_step_moves tasks s i pc Hpc Himg) as (pc1 & s1 & Hstep & Hrank);
      [done|].
    assert (pc1 ≠ Pending) as Hne1.
    { intros ->. destruct Hrank as [Hr|[<- _]]; [|done].
      destruct pc; simpl in *; try done; lia. }
    destruct (IH (<[i := pc1]> tasks) s1 pc1) as (pc' & s' & Hrun & Hrank'); [|done..|].
    { apply list_lookup_insert_eq. by eapply lookup_lt_Some. }
    exists pc', s'. simpl replicate. rewrite run_cons, Hstep, Hrun.
    rewrite list_insert_insert_eq. split; [done|].
    destruct Hrank as [?|[-> ?]]; lia.
Qed.

Lemma rank_0 pc : rank pc = 0%nat → ∃ r, pc = Done r.
Proof. destruct pc; try done. by eexists. Qed.

(** Four decisions for task [i]: the task ends up finished, or is still
    waiting for a worker; nothing else moves. *)
Lemma run_finish i tasks (s : state image) :
  length tasks = length images →
  ∃ tasks' s', run (replicate 4 i) tasks s = (Ret tasks', s') ∧
    length tasks' = length tasks ∧
    (∀ j, j ≠ i → tasks' !! j = tasks !! j) ∧
    (∀ pc', tasks' !! i = Some pc' →
       (∃ r, pc' = Done r) ∨
       pc' = Pending ∧ tasks !! i = Some Pending ∧ blocked mw tasks = true).
Proof.
  intros Hlen.
  destruct (tasks !! i) as [pc|] eqn:Hpc.
  2:{ exists tasks, s. rewrite run_idle by auto. repeat split; auto. congruence. }
  assert (is_Some (images !! i)) as Himg.
  { apply lookup_lt_is_Some. rewrite <- Hlen. by eapply lookup_lt_Some. }
  assert (i < length tasks)%nat as Hi by (by eapply lookup_lt_Some).
  destruct (decide (pc = Pending)) as [->|Hne].
  - destruct (blocked mw tasks) eqn:Hb.
    + exists tasks, s. rewrite run_idle by auto. repeat split; auto.
      intros pc' Hpc'. right. split; [congruence|done].
    + destruct (pool_step_moves tasks s i Pending Hpc Himg) as (pc1 & s1 & Hstep & Hrank);
        [done|].
      assert (pc1 ≠ Pending) as Hne1.
      { intros ->. simpl in *. lia. }
      destruct (run_started 3 i (<[i := pc1]> tasks) s1 pc1)
        as (pc' & s' & Hrun & Hrank'); [|done..|].
      { by apply list_lookup_insert_eq. }
      exists (<[i := pc']> tasks), s'.
      change (replicate 4 i) with (i :: replicate 3 i).
      rewrite run_cons, Hstep, Hrun, list_insert_insert_eq.
      rewrite length_insert. repeat split; auto.
      * intros j Hj. by rewrite list_lookup_insert_ne.
      * intros pc''. rewrite list_lookup_insert_eq by done. intros [= <-].
        left. apply rank_0. simpl in Hrank. lia.
  - destruct (run_started 4 i tasks s pc) as (pc' & s' & Hrun & Hrank'); [done..|].
    exists (<[i := pc']> tasks), s'. rewrite Hrun, length_insert.
    repeat split; auto.
    + intros j Hj. by rewrite list_lookup_insert_ne.
    + intros pc''. rewrite list_lookup_insert_eq by done. intros [= <-].
      left. apply rank_0. destruct pc; simpl in *; try done; lia.
Qed.

Lemma stage_S a n : stage a (S n) = (replicate 4 a ++ stage (S a) n)%list.
Proof. done. Qed.

Lemma idle_not_blocked tasks : 0 < mw → idle tasks → blocked mw tasks = false.
Proof.
  intros Hmw Hidle. unfold blocked.
  replace (filter _ tasks) with (@nil task_pc); [by apply negb_false_iff, Z.ltb_lt|].
  symmetry. induction Hidle as [|pc tasks Hpc _ IH]; [done|].
  rewrite filter_cons_False; [done|]. by rewrite Hpc.
Qed.

(** The first pass of the join: afterwards no task in its range is running. *)
Lemma run_pass_drains a n tasks (s : state image) :
  length tasks = length images →
  ∃ tasks' s', run (stage a n) tasks s = (Ret tasks', s') ∧
    length tasks' = length tasks ∧
    (∀ j, (j < a ∨ a + n ≤ j)%nat → tasks' !! j = tasks !! j) ∧
    (∀ j pc, (a ≤ j < a + n)%nat → tasks' !! j = Some pc → is_busy pc = false).
Proof.
  revert a tasks s. induction n as [|n IH]; intros a tasks s Hlen.
  - exists tasks, s. repeat split; auto. intros; lia.
  - destruct (run_finish a tasks s Hlen) as (tasks1 & s1 & Hrun1 & Hlen1 & Hsame1 & Ha).
    destruct (IH (S a) tasks1 s1) as (tasks' & s' & Hrun & Hlen' & Hsame & Hrange);
      [congruence|].
    exists tasks', s'. rewrite stage_S, run_app, Hrun1, Hrun.
    split; [done|]. split; [congruence|]. split.
    + intros j Hj. rewrite Hsame by lia. apply Hsame1. lia.
    + intros j pc Hj Hpc. destruct (decide (j = a)) as [->|Hne].
      * rewrite Hsame in Hpc by lia.
        destruct (Ha _ Hpc) as [[r ->]|[-> _]]; done.
      * apply (Hrange j); [lia|done].
Qed.

(** The second pass: with nothing running and a worker to be had, every
    task in the range is finished. *)
Lemma run_pass_finishes a n tasks (s : state image) :
  0 < mw → length tasks = length images → idle tasks →
  ∃ tasks' s', run (stage a n) tasks s = (Ret tasks', s') ∧
    length tasks' = length tasks ∧ idle tasks' ∧
    (∀ j, (j < a ∨ a + n ≤ j)%nat → tasks' !! j = tasks !! j) ∧
    (∀ j pc, (a ≤ j < a + n)%nat → tasks' !! j = Some pc → is_done pc = true).
Proof.
  intros Hmw. revert a tasks s. induction n as [|n IH]; intros a tasks s Hlen Hidle.
  - exists tasks, s. repeat split; auto. intros; lia.
  - destruct (run_finish a tasks s Hlen) as (tasks1 & s1 & Hrun1 & Hlen1 & Hsame1 & Ha).
    assert (∀ pc, tasks1 !! a = Some pc → is_done pc = true) as Ha'.
    { intros pc Hpc. destruct (Ha _ Hpc) as [[r ->]|(_ & _ & Hb)]; [done|].
      by rewrite idle_not_blocked in Hb. }
    assert (idle tasks1) as Hidle1.
    { apply Forall_lookup. intros j pc Hpc.
      destruct (decide (j = a)) as [->|Hne].
      - apply Ha' in Hpc. by destruct pc.
      - rewrite Hsame1 in Hpc by done.
        by apply (proj1 (Forall_lookup _ _) Hidle j). }
    destruct (IH (S a) tasks1 s1) as (tasks' & s' & Hrun & Hlen' & Hidle' & Hsame & Hrange);
      [congruence|done|].
    exists tasks', s'. rewrite stage_S, run_app, Hrun1, Hrun.
    split; [done|]. split; [congruence|]. split; [done|]. split.
    + intros j Hj. rewrite Hsame by lia. apply Hsame1. lia.
    + intros j pc Hj Hpc. destruct (decide (j = a)) as [->|Hne].
      * rewrite Hsame in Hpc by lia. by apply Ha'.
      * apply (Hrange j); [lia|done].
Qed.

(** After the join every task has returned. *)
Lemma run_join tasks (s : state image) :
  0 < mw → length tasks = length images →
  ∃ tasks' s', run (join_order (length images)) tasks s = (Ret tasks', s') ∧
    Forall (λ pc, is_done pc = true) tasks'.
Proof.
  intros Hmw Hlen. unfold join_order.
  destruct (run_pass_drains 0 (length images) tasks s Hlen)
    as (tasks1 & s1 & Hrun1 & Hlen1 & _ & Hidle1).
  destruct (run_pass_finishes 0 (length images) tasks1 s1 Hmw) as
    (tasks' & s' & Hrun & Hlen' & _ & _ & Hdone); [congruence| |].
  { apply Forall_lookup. intros j pc Hpc. apply (Hidle1 j); [|done].
    apply lookup_lt_Some in Hpc. lia. }
  exists tasks', s'. rewrite run_app, Hrun1, Hrun. split; [done|].
  apply Forall_lookup. intros j pc Hpc. apply (Hdone j); [|done].
  apply lookup_lt_Some in Hpc. lia.
Qed.

End Progress.

(** ** The phases of extract_text_from_pdf *)

Section Phases.

Context {image : Type}.
Variable env : Env image.

Lemma extract_unfold sched pdf out mt (w : world image) :
  extract_text_from_pdf env sched pdf out mt w =
  match check_dependencies env w with
  | (Raise e, w1) => run_failed e w1
  | (Ret false, w1) => (Ret None, w1)
  | (Ret true, w1) =>
      if path_exists w1 pdf then
        let w2 := (print ("Converting PDF to images: " +:+ pdf) w1).2 in
        match convert_from_path env pdf with
        | Raise e => run_failed e w2
        | Ret images => try_except (pipeline env sched out mt images) run_failed w2
        end
      else (Ret None, (print ("Error: PDF file not found: " +:+ pdf) w1).2)
  end.
Proof.
  unfold extract_text_from_pdf, try_except at 1.
  unfold mbind at 1, M_bind at 1.
  destruct (check_dependencies env w) as [[[]|e] w1]; simpl; [|done..].
  unfold mbind at 1, M_bind at 1. unfold get_state at 1.
  destruct (path_exists w1 pdf); simpl; [|done].
  unfold mbind at 1, M_bind at 1. simpl.
  unfold mbind at 1, M_bind at 1. unfold lift_res at 1.
  destruct (convert_from_path env pdf) as [images|e]; [|done].
  done.
Qed.

Lemma pipeline_unfold sched out mt images (w : world image) :
  pipeline env sched out mt images w =
  match process_pages env (pool_size env mt) sched work_dir images
          (prepared env mt images w) with
  | (Ret extracted_text, w') => finish_run env out extracted_text w'
  | (Raise e, w') => (Raise e, w')
  end.
Proof.
  unfold pipeline, prepared.
  unfold mbind at 1, M_bind at 1. simpl.
  unfold mbind at 1, M_bind at 1. unfold get_state at 1.
  unfold mbind at 1, M_bind at 1.
  destruct (negb (path_exists _ work_dir)); simpl.
  - unfold mbind at 1, M_bind at 1. simpl.
    unfold mbind at 1, M_bind at 1.
    by destruct (process_pages _ _ _ _ _ _) as [[text|e] w'].
  - unfold mbind at 1, M_bind at 1. simpl.
    unfold mbind at 1, M_bind at 1.
    by destruct (process_pages _ _ _ _ _ _) as [[text|e] w'].
Qed.

Lemma print_world line (w : world image) :
  print line w = (Ret (), World (files w) (dirs w) (stdout w ++ [line])).
Proof. done. Qed.

Lemma check_tesseract_frame (w : world image) :
  ∃ lines, (check_tesseract env w).2 = World (files w) (dirs w) (stdout w ++ lines).
Proof.
  unfold check_tesseract.
  destruct (get_tesseract_version env) as [v|e].
  { exists []. destruct w. simpl. by rewrite app_nil_r. }
  destruct (exn_cls e); try (exists []; destruct w; simpl; by rewrite app_nil_r).
  eexists. unfold mbind, M_bind. simpl. by rewrite <- !(assoc_L (++)).
Qed.

Lemma check_dependencies_frame (w : world image) :
  ∃ lines, (check_dependencies env w).2 = World (files w) (dirs w) (stdout w ++ lines).
Proof.
  unfold check_dependencies.
  destruct (is_win env).
  - unfold mbind at 1, M_bind at 1. unfold get_state at 1.
    destruct (negb _); [|apply check_tesseract_frame].
    eexists. unfold mbind, M_bind. simpl. by rewrite <- !(assoc_L (++)).
  - destruct (which env "pdftoppm"); [apply check_tesseract_frame|].
    eexists. unfold mbind, M_bind. simpl. by rewrite <- !(assoc_L (++)).
Qed.

Lemma path_exists_frame (w w' : world image) p :
  files w' = files w → dirs w' = dirs w → path_exists w' p = path_exists w p.
Proof. unfold path_exists. by intros -> ->. Qed.

Lemma dir_is_empty_frame (w w' : world image) d :
  files w' = files w → dirs w' = dirs w →
  dir_is_empty env w' d = dir_is_empty env w d.
Proof. unfold dir_is_empty, entries. by intros -> ->. Qed.

Lemma prepared_files mt images (w : world image) :
  files (prepared env mt images w) = files w.
Proof. unfold prepared. simpl. by destruct (negb _). Qed.

Lemma prepared_dirs mt images (w : world image) :
  dirs (prepared env mt images w) =
  if path_exists w work_dir then dirs w else {[work_dir]} ∪ dirs w.
Proof.
  unfold prepared. simpl.
  replace (path_exists (World _ _ _) work_dir) with (path_exists w work_dir)
    by (by apply path_exists_frame).
  by destruct (path_exists w work_dir).
Qed.

Lemma is_child_path_of ident i :
  is_child env work_dir (path_of env ident work_dir i) = true.
Proof.
  unfold is_child, path_of, image_path, OsPath.join.
  rewrite image_name_starts.
  assert (bool_decide ("p"%char = os_sep env) = false) as ->.
  { unfold os_sep. by destruct (is_win env). }
  assert (bool_decide (work_dir = "") || PyStr.ends_with_char (os_sep env) work_dir
          = false) as ->.
  { unfold os_sep. by destruct (is_win env). }
  set (name := image_name _ _).
  change (work_dir +:+ String (os_sep env) name)
    with (work_dir +:+ (String (os_sep env) "" +:+ name)).
  rewrite <- append_assoc. apply prefix_append.
Qed.

Lemma is_child_self d : is_child env d d = false.
Proof.
  unfold is_child. induction d as [|a d IH]; [done|].
  rewrite append_cons. simpl. by destruct (Ascii.ascii_dec a a).
Qed.

End Phases.

(** ** The pool after the join *)

Section Joined.

Context {image : Type}.
Variable env : Env image.

Lemma pool_inv_init ident images dir (w : world image) :
  pool_inv env ident images dir (files w) (dirs w)
    (replicate (length images) Pending)
    (State {| temp_dir := dir; results := ∅ |} w).
Proof.
  split; simpl; auto.
  - by rewrite length_replicate.
  - intros i pc img [-> _]%lookup_replicate _. done.
Qed.

(** The pool always joins, in a state that satisfies the invariant, with
    every task returned. *)
Lemma thread_pool_joined mw sched images dir (w : world image) :
  0 < mw →
  ∃ tasks s',
    thread_pool env mw sched images (State {| temp_dir := dir; results := ∅ |} w)
      = (Ret tasks, s') ∧
    pool_inv env (sched_ident sched) images dir (files w) (dirs w) tasks s' ∧
    Forall (λ pc, is_done pc = true) tasks.
Proof.
  intros Hmw. unfold thread_pool.
  assert ((mw <=? 0) = false) as -> by (apply Z.leb_gt; lia).
  rewrite run_app.
  destruct (run_order_inv env (sched_ident sched) images dir (files w) (dirs w) mw
              (sched_order sched) _ _ (pool_inv_init _ images dir w))
    as (tasks1 & s1 & -> & Hinv1).
  destruct (run_order_inv env (sched_ident sched) images dir (files w) (dirs w) mw
              (join_order (length images)) _ _ Hinv1)
    as (tasks' & s' & Hrun & Hinv').
  destruct (run_join env mw (sched_ident sched) images tasks1 s1 Hmw)
    as (tasks'' & s'' & Hrun' & Hdone); [by destruct Hinv1|].
  rewrite Hrun in Hrun'. injection Hrun' as <- <-.
  by exists tasks', s'.
Qed.

Lemma thread_pool_no_worker mw sched images (s : state image) :
  mw ≤ 0 →
  thread_pool env mw sched images s
  = (Raise (Exn ValueError "max_workers must be greater than 0"), s).
Proof.
  intros Hmw. unfold thread_pool.
  by assert ((mw <=? 0) = true) as -> by (apply Z.leb_le; lia).
Qed.

End Joined.

(** ** Reassembly *)

Section Reassembly.

Lemma combine_results_present n (m : gmap Z string) :
  combine_results n m = document (present m (seqZ 1 n)).
Proof.
  unfold combine_results. generalize (seqZ 1 n). intros l.
  rewrite <- (append_empty_l (document _)). generalize "".
  induction l as [|i l IH]; intros acc; simpl.
  - by rewrite append_empty_r.
  - rewrite IH. unfold present. simpl.
    destruct (m !! i) as [t|]; simpl; [|done].
    unfold page_section. simpl. by rewrite !append_assoc.
Qed.

Lemma present_all (m : gmap Z string) a texts :
  (∀ i t, texts !! i = Some t → m !! (a + Z.of_nat i) = Some t) →
  present m (seqZ a (Z.of_nat (length texts))) = zip (seqZ a (Z.of_nat (length texts))) texts.
Proof.
  revert a. induction texts as [|t texts IH]; intros a H; [done|].
  rewrite seqZ_cons by (simpl; lia).
  replace (Z.pred (Z.of_nat (length (t :: texts)))) with (Z.of_nat (length texts))
    by (simpl; lia).
  unfold present. simpl.
  specialize (H 0%nat t eq_refl) as H0. rewrite Z.add_0_r in H0. rewrite H0. simpl.
  f_equal. apply IH. intros i t' Hi.
  specialize (H (S i) t' Hi). by replace (Z.succ a + Z.of_nat i) with (a + Z.of_nat (S i)) by lia.
Qed.

Lemma present_delete (m : gmap Z string) a texts k :
  (k < length texts)%nat →
  (∀ i t, texts !! i = Some t → i ≠ k → m !! (a + Z.of_nat i) = Some t) →
  m !! (a + Z.of_nat k) = None →
  present m (seqZ a (Z.of_nat (length texts)))
  = delete k (zip (seqZ a (Z.of_nat (length texts))) texts).
Proof.
  revert a k. induction texts as [|t texts IH]; intros a k Hk H Hnone; [simpl in Hk; lia|].
  rewrite seqZ_cons by (simpl; lia).
  replace (Z.pred (Z.of_nat (length (t :: texts)))) with (Z.of_nat (length texts))
    by (simpl; lia).
  unfold present. simpl. destruct k as [|k].
  - rewrite Z.add_0_r in Hnone. rewrite Hnone. simpl.
    apply present_all. intros i t' Hi.
    specialize (H (S i) t' Hi). 
    replace (Z.succ a + Z.of_nat i) with (a + Z.of_nat (S i)) by lia. by apply H.
  - specialize (H 0%nat t eq_refl) as H0. rewrite Z.add_0_r in H0. rewrite H0 by done.
    simpl. f_equal. apply IH.
    + simpl in Hk. lia.
    + intros i t' Hi Hne. specialize (H (S i) t' Hi).
      replace (Z.succ a + Z.of_nat i) with (a + Z.of_nat (S i)) by lia. apply H. lia.
    + by replace (Z.succ a + Z.of_nat k) with (a + Z.of_nat (S k)) by lia.
Qed.

Lemma store_of_list_to_map inserts :
  store_of inserts = list_to_map (reverse inserts).
Proof.
  unfold store_of. induction inserts as [|[p t] l IH] using rev_ind; [done|].
  by rewrite foldl_app, reverse_snoc, IH.
Qed.

Lemma store_of_lookup texts inserts i :
  inserts ≡ₚ zip (seqZ 1 (Z.of_nat (length texts))) texts →
  store_of inserts !! (1 + Z.of_nat i) = texts !! i.
Proof.
  intros Hperm. rewrite store_of_list_to_map.
  set (n := Z.of_nat (length texts)) in *.
  assert (length (seqZ 1 n) = length texts) as Hlen.
  { rewrite length_seqZ. unfold n. lia. }
  assert (NoDup (zip (seqZ 1 n) texts).*1) as Hnd.
  { rewrite fst_zip by lia. apply NoDup_seqZ. }
  rewrite (list_to_map_proper (reverse inserts) (zip (seqZ 1 n) texts)).
  2:{ by rewrite reverse_Permutation, Hperm. }
  2:{ by rewrite reverse_Permutation, Hperm. }
  destruct (texts !! i) as [t|] eqn:Ht.
  - apply elem_of_list_to_map; [done|].
    apply list_elem_of_lookup. exists i. apply lookup_zip_with_Some.
    exists (1 + Z.of_nat i), t. split; [done|]. split; [|done].
    apply lookup_seqZ. split; [done|]. apply lookup_lt_Some in Ht. unfold n. lia.
  - apply not_elem_of_list_to_map. rewrite fst_zip by lia.
    rewrite elem_of_seqZ. apply lookup_ge_None in Ht. unfold n. lia.
Qed.

End Reassembly.

(** ** The run as a whole *)

Section RunFacts.

Context {image : Type}.
Variable env : Env image.

Lemma recorded_not_left path (img : image) t :
  recorded env path img = Some t → leaves_file env path img = false.
Proof.
  unfold recorded, leaves_file.
  destruct (page_attempt env path img); [|done].
  by destruct (image_save_fault env img path).
Qed.

(** What the pool leaves behind, whatever the schedule. *)
Lemma process_pages_joined mw sched images dir (w : world image) :
  0 < mw →
  ∃ tasks s',
    thread_pool env mw sched images (State {| temp_dir := dir; results := ∅ |} w)
      = (Ret tasks, s') ∧
    process_pages env mw sched dir images w
      = (Ret (combine_results (Z.of_nat (length images)) (results (self s'))), os s') ∧
    dirs (os s') = dirs w ∧
    (∀ i img, images !! i = Some img →
       tasks !! i = Some (Done (page_of i,
         default "" (recorded env (path_of env (sched_ident sched) dir i) img))) ∧
       results (self s') !! page_of i
         = recorded env (path_of env (sched_ident sched) dir i) img ∧
       (leaves_file env (path_of env (sched_ident sched) dir i) img = true →
        files (os s') !! path_of env (sched_ident sched) dir i = Some (ImageFile img))) ∧
    (∀ q, q < 1 ∨ Z.of_nat (length images) < q → results (self s') !! q = None) ∧
    (∀ f x, files (os s') !! f = Some x →
       files w !! f = Some x ∨
       ∃ i img, images !! i = Some img ∧
                leaves_file env (path_of env (sched_ident sched) dir i) img = true ∧
                f = path_of env (sched_ident sched) dir i) ∧
    (∀ f, (∀ i, (i < length images)%nat → f ≠ path_of env (sched_ident sched) dir i) →
          files (os s') !! f = files w !! f).
Proof.
  intros Hmw.
  destruct (thread_pool_joined env mw sched images dir w Hmw)
    as (tasks & s' & Hpool & [Hlen Hdir Hdirs Htasks Hheld Hframe Hkeys] & Hdone).
  exists tasks, s'. split; [done|]. split.
  { unfold process_pages. by rewrite Hpool. }
  split; [done|].
  assert (∀ i img, images !! i = Some img → ∃ r, tasks !! i = Some (Done r)) as Hret.
  { intros i img Himg.
    destruct (lookup_lt_is_Some_2 tasks i) as [pc Hpc].
    { rewrite Hlen. by eapply lookup_lt_Some. }
    pose proof (proj1 (Forall_lookup _ _) Hdone i pc Hpc) as Hd.
    destruct pc; try done. by eexists. }
  split; [|split; [|split]].
  - intros i img Himg. destruct (Hret i img Himg) as [r Hr].
    destruct (Htasks i _ img Hr Himg) as (-> & Hres & Hfile). done.
  - intros q Hq. apply Hkeys. intros i Hi. unfold page_of. lia.
  - intros f x Hf.
    destruct (Hheld f x Hf) as [?|(i & pc & img & Hpc & Himg & Hh & ->)]; [by left|].
    right. exists i, img. split; [done|]. split; [|done].
    destruct (Hret i img Himg) as [r Hr]. rewrite Hr in Hpc. by injection Hpc as <-.
  - done.
Qed.

Lemma os_rmdir_ok (w : world image) d :
  d ∈ dirs w → dir_is_empty env w d = true →
  os_rmdir env d w = (Ret (), World (files w) (dirs w ∖ {[d]}) (stdout w)).
Proof.
  intros Hd He. unfold os_rmdir. rewrite He.
  by rewrite bool_decide_eq_true_2.
Qed.

Lemma os_rmdir_occupied (w : world image) d p :
  p ∈ entries w → is_child env d p = true →
  os_rmdir env d w = (Raise (Exn OSError ("cannot remove directory: " +:+ d)), w).
Proof.
  intros Hp Hc. unfold os_rmdir.
  assert (dir_is_empty env w d = false) as ->; [|by rewrite andb_false_r].
  apply bool_decide_eq_false. intros H. specialize (H p Hp). simpl in H. congruence.
Qed.

(** With the working directory clean and no task leaving a file, the
    directory is empty again after the join. *)
Lemma dir_is_empty_joined mw sched images mt (w : world image) tasks s' :
  work_dir_clean env w →
  thread_pool env mw sched images
    (State {| temp_dir := work_dir; results := ∅ |} (prepared env mt images w))
    = (Ret tasks, s') →
  0 < mw →
  (∀ i img, images !! i = Some img →
     leaves_file env (path_of env (sched_ident sched) work_dir i) img = false) →
  work_dir ∈ dirs (os s') ∧ dir_is_empty env (os s') work_dir = true.
Proof.
  intros [Hnofile Hclean] Hpool Hmw Hnone.
  destruct (process_pages_joined mw sched images work_dir (prepared env mt images w) Hmw)
    as (tasks' & s'' & Hpool' & _ & Hdirs & _ & _ & Hheld & _).
  rewrite Hpool in Hpool'. injection Hpool' as <- <-.
  rewrite prepared_dirs in Hdirs. rewrite prepared_files in Hheld.
  apply bool_decide_eq_true in Hclean.
  split.
  - rewrite Hdirs. unfold path_exists. rewrite Hnofile.
    rewrite (bool_decide_eq_false_2 (is_Some None)) by (by intros [? ?]).
    simpl. case_bool_decide as Hin; [done|].
    by apply elem_of_union_l, elem_of_singleton.
  - apply bool_decide_eq_true. intros p Hp. simpl.
    unfold entries in Hp. apply elem_of_union in Hp as [Hp|Hp].
    + apply elem_of_dom in Hp as [x Hx].
      destruct (Hheld p x Hx) as [Hw|(i & img & Himg & Hleft & _)].
      * apply (Hclean p). unfold entries. apply elem_of_union_l, elem_of_dom. by eexists.
      * rewrite Hnone in Hleft by done. done.
    + rewrite Hdirs in Hp.
      destruct (path_exists w work_dir).
      * apply (Hclean p). unfold entries. by apply elem_of_union_r.
      * apply elem_of_union in Hp as [->%elem_of_singleton|Hp].
        -- apply is_child_self.
        -- apply (Hclean p). unfold entries. by apply elem_of_union_r.
Qed.


Lemma work_dir_clean_frame (w w' : world image) :
  files w' = files w → dirs w' = dirs w →
  work_dir_clean env w → work_dir_clean env w'.
Proof.
  unfold work_dir_clean. intros Hf Hd [H1 H2].
  by rewrite Hf, (dir_is_empty_frame env w w').
Qed.

(** The world after the preflight and the announcement of line 107. *)
Lemma rasterized_world pdf (w : world image) :
  ∃ lines,
    (print ("Converting PDF to images: " +:+ pdf) (check_dependencies env w).2).2
    = World (files w) (dirs w) (stdout w ++ lines).
Proof.
  destruct (check_dependencies_frame env w) as [lines ->].
  eexists. simpl. by rewrite <- (assoc_L (++)).
Qed.

Lemma finish_run_ok out text (w : world image) :
  work_dir ∈ dirs w → dir_is_empty env w work_dir = true →
  (truthy out = true → open_write_fault env (default "" out) = None) →
  (finish_run env out text w).1 = Ret (Some text).
Proof.
  intros Hd He Hout. unfold finish_run.
  unfold mbind at 1, M_bind at 1. rewrite os_rmdir_ok by done.
  unfold mbind at 1, M_bind at 1. simpl.
  unfold mbind at 1, M_bind at 1.
  destruct (truthy out); [|done].
  unfold mbind at 1, M_bind at 1. unfold write_text. rewrite Hout by done. done.
Qed.

(** Every page succeeds in a clean working directory: the run returns the
    document of all pages. *)
Lemma run_succeeds sched pdf out mt (w : world image) images texts :
  (check_dependencies env w).1 = Ret true →
  path_exists w pdf = true →
  convert_from_path env pdf = Ret images →
  0 < pool_size env mt →
  work_dir_clean env w →
  (truthy out = true → open_write_fault env (default "" out) = None) →
  length texts = length images →
  (∀ i img, images !! i = Some img →
     recorded env (path_of env (sched_ident sched) work_dir i) img = texts !! i) →
  (extract_text_from_pdf env sched pdf out mt w).1
  = Ret (Some (document (zip (seqZ 1 (Z.of_nat (length images))) texts))).
Proof.
  intros Hcheck Hpdf Hconv Hmw Hclean Hout Hlen Hrec.
  rewrite extract_unfold.
  destruct (rasterized_world pdf w) as [lines Hw2].
  destruct (check_dependencies env w) as [r w1] eqn:Hc.
  simpl in Hcheck. cbn [snd] in Hw2. subst r.
  destruct (check_dependencies_frame env w) as [lines1 Hw1]. rewrite Hc in Hw1.
  simpl in Hw1.
  cbv beta iota. rewrite (path_exists_frame w w1) by (by rewrite Hw1).
  rewrite Hpdf, Hconv. cbv zeta. rewrite Hw2. clear Hw1 Hw2 Hc w1.
  set (w2 := World _ _ _).
  assert (work_dir_clean env w2) as Hclean2 by (by eapply work_dir_clean_frame).
  unfold try_except. rewrite pipeline_unfold.
  destruct (process_pages_joined (pool_size env mt) sched images work_dir
              (prepared env mt images w2) Hmw)
    as (tasks & s' & Hpool & -> & _ & Htasks & _ & _ & _).
  destruct (dir_is_empty_joined _ _ _ _ _ _ _ Hclean2 Hpool Hmw) as [Hd He].
  { intros i img Himg. destruct (texts !! i) as [t|] eqn:Ht.
    - eapply recorded_not_left. rewrite Hrec by done. done.
    - apply lookup_ge_None in Ht. apply lookup_lt_Some in Himg. lia. }
  pose proof (finish_run_ok out
    (combine_results (Z.of_nat (length images)) (results (self s'))) (os s') Hd He Hout)
    as Hfin.
  destruct (finish_run env out _ (os s')) as [r w']. simpl in Hfin. subst r. simpl.
  rewrite combine_results_present. rewrite <- Hlen.
  rewrite present_all; [done|].
  intros i t Ht.
  destruct (lookup_lt_is_Some_2 images i) as [img Himg].
  { rewrite <- Hlen. by eapply lookup_lt_Some. }
  destruct (Htasks i img Himg) as (_ & Hres & _).
  rewrite Hrec in Hres by done. rewrite <- Ht, <- Hres. f_equal. unfold page_of. lia.
Qed.

(** A task that leaves its file makes [os.rmdir] fail: the run returns
    [None], and the file and the directory stay. *)
Lemma run_leftover sched pdf out mt (w : world image) images k img :
  (check_dependencies env w).1 = Ret true →
  path_exists w pdf = true →
  convert_from_path env pdf = Ret images →
  0 < pool_size env mt →
  images !! k = Some img →
  leaves_file env (path_of env (sched_ident sched) work_dir k) img = true →
  ∃ w', extract_text_from_pdf env sched pdf out mt w = (Ret None, w') ∧
        files w' !! path_of env (sched_ident sched) work_dir k = Some (ImageFile img) ∧
        dirs w' = (if path_exists w work_dir then dirs w else {[work_dir]} ∪ dirs w) ∧
        last (stdout w')
        = Some ("An error occurred: cannot remove directory: " +:+ work_dir).
Proof.
  intros Hcheck Hpdf Hconv Hmw Himg Hleft.
  rewrite extract_unfold.
  destruct (rasterized_world pdf w) as [lines Hw2].
  destruct (check_dependencies env w) as [r w1] eqn:Hc.
  simpl in Hcheck. cbn [snd] in Hw2. subst r.
  destruct (check_dependencies_frame env w) as [lines1 Hw1]. rewrite Hc in Hw1.
  simpl in Hw1.
  cbv beta iota. rewrite (path_exists_frame w w1) by (by rewrite Hw1).
  rewrite Hpdf, Hconv. cbv zeta. rewrite Hw2. clear Hw1 Hw2 Hc w1.
  set (w2 := World _ _ _).
  unfold try_except. rewrite pipeline_unfold.
  destruct (process_pages_joined (pool_size env mt) sched images work_dir
              (prepared env mt images w2) Hmw)
    as (tasks & s' & Hpool & -> & Hdirs & Htasks & _ & _ & _).
  destruct (Htasks k img Himg) as (_ & _ & Hfile). specialize (Hfile Hleft).
  unfold finish_run. unfold mbind at 1, M_bind at 1.
  rewrite (os_rmdir_occupied (os s') work_dir
             (path_of env (sched_ident sched) work_dir k)).
  2:{ unfold entries. apply elem_of_union_l, elem_of_dom. by eexists. }
  2:{ apply is_child_path_of. }
  eexists. split; [done|]. simpl. split; [done|]. split.
  - by rewrite Hdirs, prepared_dirs.
  - by rewrite last_snoc.
Qed.

Lemma try_pipeline_returns sched out mt images (w : world image) :
  ∃ r w', try_except (pipeline env sched out mt images) run_failed w = (Ret r, w').
Proof.
  unfold try_except.
  destruct (pipeline env sched out mt images w) as [[r|e] w']; by eexists _, _.
Qed.

(** The run never raises. *)
Lemma extract_returns sched pdf out mt (w : world image) :
  ∃ r w', extract_text_from_pdf env sched pdf out mt w = (Ret r, w').
Proof.
  rewrite extract_unfold.
  destruct (check_dependencies env w) as [[[]|e] w1]; [|by eexists _, _..].
  destruct (path_exists w1 pdf); [|by eexists _, _].
  cbv zeta. destruct (convert_from_path env pdf); [|by eexists _, _].
  apply try_pipeline_returns.
Qed.

(** Without a worker the pool constructor raises and the handler of line
    164 turns that into [None]. *)
Lemma pipeline_no_worker sched out mt images (w : world image) :
  pool_size env mt ≤ 0 →
  ∃ w', try_except (pipeline env sched out mt images) run_failed w = (Ret None, w') ∧
        last (stdout w') = Some "An error occurred: max_workers must be greater than 0".
Proof.
  intros Hmw. unfold try_except. rewrite pipeline_unfold.
  unfold process_pages. rewrite thread_pool_no_worker by done.
  eexists. split; [done|]. simpl. by rewrite last_snoc.
Qed.

End RunFacts.

(** ** The claims *)

(** C7.  The transient file path encodes the page number and the identity
    of the running thread: two tasks that differ in page number or in thread
    identity get different paths, so that persisting the image of one leaves
    the transient file of the other untouched. *)
Theorem transient_paths_collision_free {image : Type} (env : Env image)
    (temp_dir : string) (p1 t1 p2 t2 : Z) (img : image) (w : world image) :
  (p1, t1) ≠ (p2, t2) →
  image_path (os_sep env) temp_dir p1 t1 ≠ image_path (os_sep env) temp_dir p2 t2 ∧
  files (image_save env img (image_path (os_sep env) temp_dir p2 t2) w).2
    !! image_path (os_sep env) temp_dir p1 t1
  = files w !! image_path (os_sep env) temp_dir p1 t1.
Proof.
  intros Hne.
  assert (image_path (os_sep env) temp_dir p1 t1
          ≠ image_path (os_sep env) temp_dir p2 t2) as Hpath.
  { intros [-> ->]%image_path_inj. done. }
  split; [done|].
  unfold image_save. destruct (image_save_fault env img _); [done|].
  simpl. by rewrite lookup_insert_ne.
Qed.

Lemma transient_paths_collision_free_witness :
  (1, 7000) ≠ (2, 7000) ∧
  image_path (os_sep (Demo.env [])) work_dir 1 7000
    ≠ image_path (os_sep (Demo.env [])) work_dir 2 7000 ∧
  files (image_save (Demo.env []) "B" (image_path (os_sep (Demo.env [])) work_dir 2 7000)
           Demo.w_dir).2
    !! image_path (os_sep (Demo.env [])) work_dir 1 7000
  = files Demo.w_dir !! image_path (os_sep (Demo.env [])) work_dir 1 7000.
Proof.
  split; [done|].
  apply (transient_paths_collision_free (Demo.env []) work_dir 1 7000 2 7000 "B" Demo.w_dir).
  done.
Defined.

(** C8.  [process_page] never raises: whatever the persist, the OCR and the
    cleanup do, it returns normally with the page number; when one of them
    fails it returns the empty text and reports the failure. *)
Theorem process_page_never_raises {image : Type} (env : Env image)
    (ident page_num : Z) (img : image) (s : state image) :
  ∃ page_text s',
    process_page env ident (page_num, img) s = (Ret (page_num, page_text), s') ∧
    ∀ e, page_attempt env
           (image_path (os_sep env) (temp_dir (self s)) page_num ident) img = Raise e →
         page_text = "" ∧
         stdout (os s') = (stdout (os s) ++ [failure_line page_num e])%list.
Proof.
  rewrite process_page_spec. cbv zeta.
  set (path := image_path _ _ _ _).
  destruct (image_save_fault env img path) as [e|] eqn:Hsave.
  { eexists _, _. split; [done|].
    unfold page_attempt. rewrite Hsave. by intros ? [= <-]. }
  destruct (page_attempt env path img) as [t|e].
  - eexists _, _. split; [done|]. by intros ? [=].
  - eexists _, _. split; [done|]. by intros ? [= <-].
Qed.

(** C1 (as the code has it).  A page is recorded only when its persist, OCR
    and cleanup all succeed; a task that fails returns the page number with
    the empty text and records nothing.  So, whatever the schedule, after the
    join the results hold exactly the pages that succeeded, each with its OCR
    text, and no other key. *)
Theorem results_after_join {image : Type} (env : Env image) (max_workers : Z)
    (sched : schedule) (images : list image) (dir : string) (w : world image) :
  0 < max_workers →
  ∃ tasks s',
    thread_pool env max_workers sched images
      (State {| temp_dir := dir; results := ∅ |} w) = (Ret tasks, s') ∧
    (∀ i img, images !! i = Some img →
       tasks !! i
       = Some (Done (page_of i,
                     default "" (recorded env (path_of env (sched_ident sched) dir i) img))) ∧
       results (self s') !! page_of i
       = recorded env (path_of env (sched_ident sched) dir i) img) ∧
    (∀ q, q < 1 ∨ Z.of_nat (length images) < q → results (self s') !! q = None).
Proof.
  intros Hmw.
  destruct (process_pages_joined env max_workers sched images dir w Hmw)
    as (tasks & s' & Hpool & _ & _ & Htasks & Hkeys & _).
  exists tasks, s'. split; [done|]. split; [|done].
  intros i img Himg. by destruct (Htasks i img Himg) as (? & ? & _).
Qed.

Lemma results_after_join_witness :
  0 < 2 ∧
  ∃ tasks s',
    thread_pool (Demo.env Demo.three_pages) 2 Demo.sched Demo.three_pages
      (State {| temp_dir := work_dir; results := ∅ |} Demo.w_dir) = (Ret tasks, s') ∧
    (∀ i img, Demo.three_pages !! i = Some img →
       tasks !! i
       = Some (Done (page_of i,
                     default "" (recorded (Demo.env Demo.three_pages)
                       (path_of (Demo.env Demo.three_pages) (sched_ident Demo.sched)
                          work_dir i) img))) ∧
       results (self s') !! page_of i
       = recorded (Demo.env Demo.three_pages)
           (path_of (Demo.env Demo.three_pages) (sched_ident Demo.sched) work_dir i) img) ∧
    (∀ q, q < 1 ∨ Z.of_nat (length Demo.three_pages) < q → results (self s') !! q = None).
Proof.
  split; [lia|].
  apply (results_after_join (Demo.env Demo.three_pages) 2 Demo.sched Demo.three_pages
           work_dir Demo.w_dir).
  lia.
Defined.

(** C1 fails as stated: the only page of a document cannot be read, and
    after the join the results have no entry for page 1, although the task
    returned [(1, "")]. *)
Lemma failed_page_not_recorded :
  (thread_pool (Demo.env [Demo.smudge]) 2 Demo.sched [Demo.smudge] Demo.state0).1
  = Ret [Done (1, "")] ∧
  results (self (thread_pool (Demo.env [Demo.smudge]) 2 Demo.sched [Demo.smudge]
                   Demo.state0).2) !! 1 = None.
Proof. by vm_compute. Qed.

(** C2 (as the code has it).  A page absent from the results contributes
    nothing to the document, neither header nor body: when page [k + 1] fails
    and all the others succeed, the pool and the reassembly yield the
    sections of the other pages, [N - 1] of them, in ascending page order,
    each with its header, whatever the schedule. *)
Theorem reassembly_skips_failed_page {image : Type} (env : Env image)
    (max_workers : Z) (sched : schedule) (images : list image) (dir : string)
    (w : world image) (k : nat) (texts : list string) :
  0 < max_workers →
  length texts = length images →
  (k < length images)%nat →
  (∀ i img, images !! i = Some img → i ≠ k →
     recorded env (path_of env (sched_ident sched) dir i) img = texts !! i) →
  (∀ img, images !! k = Some img →
     recorded env (path_of env (sched_ident sched) dir k) img = None) →
  ∃ w',
    process_pages env max_workers sched dir images w
    = (Ret (document (delete k (zip (seqZ 1 (Z.of_nat (length images))) texts))), w') ∧
    length (delete k (zip (seqZ 1 (Z.of_nat (length images))) texts))
    = (length images - 1)%nat.
Proof.
  intros Hmw Hlen Hk Hothers Hfailed.
  destruct (process_pages_joined env max_workers sched images dir w Hmw)
    as (tasks & s' & _ & -> & _ & Htasks & _).
  eexists. split.
  - rewrite combine_results_present, <- Hlen.
    rewrite (present_delete _ 1 texts k); [done|lia| |].
    + intros i t Ht Hne.
      destruct (lookup_lt_is_Some_2 images i) as [img Himg].
      { rewrite <- Hlen. by eapply lookup_lt_Some. }
      destruct (Htasks i img Himg) as (_ & Hres & _).
      rewrite Hothers in Hres by done. rewrite <- Ht, <- Hres.
      f_equal. unfold page_of. lia.
    + destruct (lookup_lt_is_Some_2 images k Hk) as [img Himg].
      destruct (Htasks k img Himg) as (_ & Hres & _).
      rewrite Hfailed in Hres by done. rewrite <- Hres.
      f_equal. unfold page_of. lia.
  - rewrite length_delete.
    + rewrite length_zip, length_seqZ. lia.
    + apply lookup_lt_is_Some. rewrite length_zip, length_seqZ. lia.
Qed.

Lemma reassembly_skips_failed_page_witness :
  0 < 2 ∧
  length ["A"; ""; "C"] = length Demo.three_pages ∧
  (1 < length Demo.three_pages)%nat ∧
  ∃ w',
    process_pages (Demo.env Demo.three_pages) 2 Demo.sched work_dir Demo.three_pages
      Demo.w_dir
    = (Ret (document (delete 1%nat
              (zip (seqZ 1 (Z.of_nat (length Demo.three_pages))) ["A"; ""; "C"]))), w') ∧
    length (delete 1%nat (zip (seqZ 1 (Z.of_nat (length Demo.three_pages))) ["A"; ""; "C"]))
    = (length Demo.three_pages - 1)%nat.
Proof.
  split; [lia|]. split; [reflexivity|]. split; [simpl; lia|].
  apply (reassembly_skips_failed_page (Demo.env Demo.three_pages) 2 Demo.sched
           Demo.three_pages work_dir Demo.w_dir 1 ["A"; ""; "C"]).
  - lia.
  - reflexivity.
  - simpl; lia.
  - intros [|[|[|i]]] img; simpl; intros [= <-] Hne; done.
  - intros img [= <-]. reflexivity.
Defined.

(** C2 fails as stated: page 2 of three cannot be read; the reassembled
    document has the sections of pages 1 and 3 only, not the three sections,
    with an empty one for page 2, that the claim describes. *)
Lemma failed_page_has_no_section :
  (process_pages (Demo.env Demo.three_pages) 2 Demo.sched work_dir Demo.three_pages
     Demo.w_dir).1
  = Ret (document [(1, "A"); (3, "C")]) ∧
  document [(1, "A"); (3, "C")] ≠ document [(1, "A"); (2, ""); (3, "C")].
Proof. split; [by vm_compute|]. by vm_compute. Qed.

(** C3, on the failing input.  Page 2 of a three-page document cannot be
    read.  Its task has persisted the image and never removes it, so
    [os.rmdir] raises and the handler of line 164 turns the whole run into
    [None], under every schedule: no document is returned. *)
Theorem unreadable_page_aborts_run (sched : schedule) :
  (extract_text_from_pdf (Demo.env Demo.three_pages) sched "in.pdf" None None Demo.w0).1
  = Ret None.
Proof.
  destruct (run_leftover (Demo.env Demo.three_pages) sched "in.pdf" None None Demo.w0
              Demo.three_pages 1 Demo.smudge) as (w' & -> & _); try done.
Qed.

(** C4, on the failing input.  After [process_page] has failed at the OCR
    of an unreadable page, the transient file it wrote is still there; and
    after the run on the three-page document, the file of page 2 and the
    working directory are still there, under every schedule. *)
Theorem failed_page_leaves_transient_file (ident : Z) (sched : schedule) :
  files (os (process_page (Demo.env [Demo.smudge]) ident (1, Demo.smudge) Demo.state0).2)
    !! image_path "/" work_dir 1 ident
  = Some (ImageFile Demo.smudge) ∧
  files (extract_text_from_pdf (Demo.env Demo.three_pages) sched "in.pdf" None None
           Demo.w0).2
    !! image_path "/" work_dir 2 (sched_ident sched 1)
  = Some (ImageFile Demo.smudge) ∧
  work_dir ∈ dirs (extract_text_from_pdf (Demo.env Demo.three_pages) sched "in.pdf" None
                     None Demo.w0).2.
Proof.
  split.
  - rewrite process_page_spec. simpl. apply lookup_insert_eq.
  - destruct (run_leftover (Demo.env Demo.three_pages) sched "in.pdf" None None Demo.w0
                Demo.three_pages 1 Demo.smudge) as (w' & -> & Hfile & Hdirs & _);
      try done.
    cbn [snd]. split; [done|]. rewrite Hdirs. by vm_compute.
Qed.

(** C5.  When every page 1..N has a recorded text, the document is the
    concatenation, in ascending page order, of each page's header followed
    by that page's text, N sections in all; and it is the document obtained
    from the N assignments [results[p] = t] made in any order. *)
Theorem document_in_page_order (texts : list string) (results : gmap Z string) :
  (∀ i t, texts !! i = Some t → results !! page_of i = Some t) →
  combine_results (Z.of_nat (length texts)) results
  = document (zip (seqZ 1 (Z.of_nat (length texts))) texts) ∧
  length (zip (seqZ 1 (Z.of_nat (length texts))) texts) = length texts ∧
  ∀ inserts,
    inserts ≡ₚ zip (seqZ 1 (Z.of_nat (length texts))) texts →
    combine_results (Z.of_nat (length texts)) (store_of inserts)
    = combine_results (Z.of_nat (length texts)) results.
Proof.
  intros Hall.
  assert (∀ m : gmap Z string,
            (∀ i t, texts !! i = Some t → m !! page_of i = Some t) →
            combine_results (Z.of_nat (length texts)) m
            = document (zip (seqZ 1 (Z.of_nat (length texts))) texts)) as Hdoc.
  { intros m Hm. rewrite combine_results_present.
    rewrite (present_all _ 1 texts); [done|].
    intros i t Ht. rewrite <- (Hm i t Ht). f_equal. unfold page_of. lia. }
  split; [by apply Hdoc|]. split.
  - rewrite length_zip, length_seqZ. lia.
  - intros inserts Hperm. rewrite (Hdoc results Hall). apply Hdoc.
    intros i t Ht. rewrite <- Ht, <- (store_of_lookup texts inserts i Hperm).
    f_equal. unfold page_of. lia.
Qed.

Lemma document_in_page_order_witness :
  (∀ i t, ["A"; "B"; "C"] !! i = Some t →
          store_of [(3, "C"); (1, "A"); (2, "B")] !! page_of i = Some t) ∧
  combine_results (Z.of_nat (length ["A"; "B"; "C"]))
    (store_of [(3, "C"); (1, "A"); (2, "B")])
  = document (zip (seqZ 1 (Z.of_nat (length ["A"; "B"; "C"]))) ["A"; "B"; "C"]) ∧
  length (zip (seqZ 1 (Z.of_nat (length ["A"; "B"; "C"]))) ["A"; "B"; "C"])
  = length ["A"; "B"; "C"] ∧
  ∀ inserts,
    inserts ≡ₚ zip (seqZ 1 (Z.of_nat (length ["A"; "B"; "C"]))) ["A"; "B"; "C"] →
    combine_results (Z.of_nat (length ["A"; "B"; "C"])) (store_of inserts)
    = combine_results (Z.of_nat (length ["A"; "B"; "C"]))
        (store_of [(3, "C"); (1, "A"); (2, "B")]).
Proof.
  assert (∀ i t, ["A"; "B"; "C"] !! i = Some t →
                 store_of [(3, "C"); (1, "A"); (2, "B")] !! page_of i = Some t) as Hall.
  { intros [|[|[|i]]] t; simpl; intros [= <-]; by vm_compute. }
  split; [exact Hall|].
  apply (document_in_page_order ["A"; "B"; "C"] (store_of [(3, "C"); (1, "A"); (2, "B")])).
  exact Hall.
Defined.

(** C6.  For an input that rasterizes to zero page images, with a worker
    to be had, the working directory free and the output writable, the run
    returns the empty document, the empty string and not [None]. *)
Theorem empty_pdf_gives_empty_document {image : Type} (env : Env image)
    (sched : schedule) (pdf_path : string) (output_file : option string)
    (max_threads : option Z) (w : world image) :
  (check_dependencies env w).1 = Ret true →
  path_exists w pdf_path = true →
  convert_from_path env pdf_path = Ret [] →
  0 < pool_size env max_threads →
  work_dir_clean env w →
  (truthy output_file = true → open_write_fault env (default "" output_file) = None) →
  (extract_text_from_pdf env sched pdf_path output_file max_threads w).1 = Ret (Some "").
Proof.
  intros Hcheck Hpdf Hconv Hmw Hclean Hout.
  by rewrite (run_succeeds env sched pdf_path output_file max_threads w [] []).
Qed.

Lemma empty_pdf_gives_empty_document_witness :
  (check_dependencies (Demo.env []) Demo.w0).1 = Ret true ∧
  path_exists Demo.w0 "in.pdf" = true ∧
  convert_from_path (Demo.env []) "in.pdf" = Ret [] ∧
  0 < pool_size (Demo.env []) None ∧
  work_dir_clean (Demo.env []) Demo.w0 ∧
  (extract_text_from_pdf (Demo.env []) Demo.sched "in.pdf" (Some "out.txt") None
     Demo.w0).1 = Ret (Some "").
Proof.
  assert (work_dir_clean (Demo.env []) Demo.w0) as Hclean.
  { split; by vm_compute. }
  split; [reflexivity|]. split; [by vm_compute|]. split; [reflexivity|].
  split; [reflexivity|]. split; [exact Hclean|].
  apply (empty_pdf_gives_empty_document (Demo.env []) Demo.sched "in.pdf"
           (Some "out.txt") None Demo.w0).
  - reflexivity.
  - by vm_compute.
  - reflexivity.
  - reflexivity.
  - exact Hclean.
  - reflexivity.
Defined.

(** C9.  On a run-level failure (the preflight returns false, the PDF path
    does not exist, or the rasterization raises) the run returns [None] and
    leaves every file and directory as it was, the output file included;
    after the preflight nothing is printed but the lines of the abort, so no
    page is processed. *)
Theorem run_level_failure_yields_nothing {image : Type} (env : Env image)
    (sched : schedule) (pdf_path : string) (output_file : option string)
    (max_threads : option Z) (w : world image) (f : run_failure) :
  occurs env w pdf_path f →
  extract_text_from_pdf env sched pdf_path output_file max_threads w
  = (Ret None,
     World (files w) (dirs w)
       (stdout (check_dependencies env w).2 ++ abort_lines pdf_path f)).
Proof.
  intros Hf. rewrite extract_unfold.
  destruct (check_dependencies_frame env w) as [lines Hw1].
  unfold occurs in Hf.
  destruct (check_dependencies env w) as [r w1]. simpl in Hw1. subst w1.
  destruct f as [| |e]; simpl in Hf.
  - subst r. simpl. by rewrite app_nil_r.
  - destruct Hf as [-> Hpdf].
    cbv beta iota. rewrite (path_exists_frame w (World _ _ _)) by done.
    by rewrite Hpdf.
  - destruct Hf as (-> & Hpdf & Hconv).
    cbv beta iota. rewrite (path_exists_frame w (World _ _ _)) by done.
    rewrite Hpdf, Hconv. unfold run_failed, mbind, M_bind. simpl.
    by rewrite <- !(assoc_L (++)).
Qed.

Lemma run_level_failure_yields_nothing_witness :
  (occurs Demo.env_no_tesseract Demo.w0 "in.pdf" PreflightError ∧
   extract_text_from_pdf Demo.env_no_tesseract Demo.sched "in.pdf" (Some "out.txt") None
     Demo.w0
   = (Ret None,
      World (files Demo.w0) (dirs Demo.w0)
        (stdout (check_dependencies Demo.env_no_tesseract Demo.w0).2
         ++ abort_lines "in.pdf" PreflightError))) ∧
  (occurs (Demo.env []) Demo.w0 "missing.pdf" InputError ∧
   extract_text_from_pdf (Demo.env []) Demo.sched "missing.pdf" (Some "out.txt") None
     Demo.w0
   = (Ret None,
      World (files Demo.w0) (dirs Demo.w0)
        (stdout (check_dependencies (Demo.env []) Demo.w0).2
         ++ abort_lines "missing.pdf" InputError))) ∧
  (occurs (Demo.env []) Demo.w0 "broken.pdf"
     (RasterizationError (Exn OtherException "Unable to get page count.")) ∧
   extract_text_from_pdf (Demo.env []) Demo.sched "broken.pdf" (Some "out.txt") None
     Demo.w0
   = (Ret None,
      World (files Demo.w0) (dirs Demo.w0)
        (stdout (check_dependencies (Demo.env []) Demo.w0).2
         ++ abort_lines "broken.pdf"
              (RasterizationError (Exn OtherException "Unable to get page count."))))).
Proof.
  assert (occurs Demo.env_no_tesseract Demo.w0 "in.pdf" PreflightError) as H1.
  { reflexivity. }
  assert (occurs (Demo.env []) Demo.w0 "missing.pdf" InputError) as H2.
  { split; [reflexivity|by vm_compute]. }
  assert (occurs (Demo.env []) Demo.w0 "broken.pdf"
            (RasterizationError (Exn OtherException "Unable to get page count."))) as H3.
  { split; [reflexivity|]. split; [by vm_compute|reflexivity]. }
  split; [|split].
  - split; [exact H1|].
    exact (run_level_failure_yields_nothing Demo.env_no_tesseract Demo.sched "in.pdf"
             (Some "out.txt") None Demo.w0 PreflightError H1).
  - split; [exact H2|].
    exact (run_level_failure_yields_nothing (Demo.env []) Demo.sched "missing.pdf"
             (Some "out.txt") None Demo.w0 InputError H2).
  - split; [exact H3|].
    exact (run_level_failure_yields_nothing (Demo.env []) Demo.sched "broken.pdf"
             (Some "out.txt") None Demo.w0 _ H3).
Defined.

(** C10.  With [max_threads] given and not positive, the run does not
    raise: it returns [None]; and when the preflight, the input check and
    the rasterization pass, the last thing printed is the report, by the
    handler of line 164, of the pool constructor's ValueError. *)
Theorem nonpositive_max_threads_returns_none {image : Type} (env : Env image)
    (sched : schedule) (pdf_path : string) (output_file : option string)
    (n : Z) (w : world image) :
  n ≤ 0 →
  (extract_text_from_pdf env sched pdf_path output_file (Some n) w).1 = Ret None ∧
  ((check_dependencies env w).1 = Ret true →
   path_exists w pdf_path = true →
   (∃ images, convert_from_path env pdf_path = Ret images) →
   last (stdout (extract_text_from_pdf env sched pdf_path output_file (Some n) w).2)
   = Some "An error occurred: max_workers must be greater than 0").
Proof.
  intros Hn. rewrite extract_unfold.
  destruct (check_dependencies_frame env w) as [lines Hw1].
  destruct (check_dependencies env w) as [[[]|e] w1]; simpl in Hw1; subst w1;
    cbv beta iota; [|by split..].
  rewrite (path_exists_frame w (World _ _ _)) by done.
  destruct (path_exists w pdf_path); [|by split].
  cbv zeta. destruct (convert_from_path env pdf_path) as [images|e].
  - destruct (pipeline_no_worker env sched output_file (Some n) images
                (print ("Converting PDF to images: " +:+ pdf_path)
                   (World (files w) (dirs w) (stdout w ++ lines))).2)
      as (w' & -> & Hlast); [done|].
    by split.
  - split; [done|]. by intros _ _ [images [=]].
Qed.

Lemma nonpositive_max_threads_returns_none_witness :
  0 ≤ 0 ∧
  (extract_text_from_pdf (Demo.env ["A"]) Demo.sched "in.pdf" None (Some 0) Demo.w0).1
  = Ret None ∧
  ((check_dependencies (Demo.env ["A"]) Demo.w0).1 = Ret true →
   path_exists Demo.w0 "in.pdf" = true →
   (∃ images, convert_from_path (Demo.env ["A"]) "in.pdf" = Ret images) →
   last (stdout (extract_text_from_pdf (Demo.env ["A"]) Demo.sched "in.pdf" None (Some 0)
                   Demo.w0).2)
   = Some "An error occurred: max_workers must be greater than 0").
Proof.
  split; [lia|].
  apply (nonpositive_max_threads_returns_none (Demo.env ["A"]) Demo.sched "in.pdf" None 0
           Demo.w0).
  lia.
Defined.

(** * Further properties *)

(** ** The page task and the pool *)

Section PoolFacts.

Context {image : Type}.
Variable env : Env image.

Lemma page_of_to_nat q : 1 ≤ q → page_of (Z.to_nat (q - 1)) = q.
Proof. unfold page_of. lia. Qed.

(** After the join the results are the outcomes of the tasks, key by key. *)
Lemma joined_outcome mw sched images dir (w : world image) :
  0 < mw →
  ∃ tasks s',
    thread_pool env mw sched images (State {| temp_dir := dir; results := ∅ |} w)
      = (Ret tasks, s') ∧
    process_pages env mw sched dir images w
      = (Ret (combine_results (Z.of_nat (length images)) (results (self s'))), os s') ∧
    ∀ q, results (self s') !! q = outcome env (sched_ident sched) images dir q.
Proof.
  intros Hmw.
  destruct (process_pages_joined env mw sched images dir w Hmw)
    as (tasks & s' & Hpool & Hpages & _ & Htasks & Hkeys & _).
  exists tasks, s'. split; [done|]. split; [done|].
  intros q. unfold outcome. case_bool_decide as Hq; [|apply Hkeys; lia].
  destruct (images !! Z.to_nat (q - 1)) as [img|] eqn:Himg; simpl.
  - destruct (Htasks _ img Himg) as (_ & Hres & _).
    by rewrite page_of_to_nat in Hres.
  - apply Hkeys. apply lookup_ge_None in Himg. lia.
Qed.

Lemma present_ext (m : gmap Z string) (f : Z → option string) pages :
  (∀ q, m !! q = f q) → present m pages = omap (λ q, pair q <$> f q) pages.
Proof.
  intros Hm. unfold present. induction pages as [|q pages IH]; [done|].
  csimpl. by rewrite Hm, IH.
Qed.

Lemma running_insert tasks i pc pc' :
  tasks !! i = Some pc →
  (running (<[i := pc']> tasks) + (if is_busy pc then 1 else 0)
   = running tasks + (if is_busy pc' then 1 else 0))%nat.
Proof.
  intros Hpc. unfold running.
  rewrite insert_take_drop by (by eapply lookup_lt_Some).
  rewrite <- (take_drop_middle tasks i pc Hpc) at 3.
  rewrite !filter_app, !filter_cons, !length_app.
  destruct (is_busy pc), (is_busy pc'); repeat case_decide; simpl; try done; lia.
Qed.

Lemma pool_step_running mw ident images tasks (s : state image) i :
  Z.of_nat (running tasks) ≤ mw →
  ∃ tasks' s', pool_step env mw ident images tasks i s = (Ret tasks', s') ∧
               Z.of_nat (running tasks') ≤ mw.
Proof.
  intros Hrun.
  destruct (tasks !! i) as [pc|] eqn:Hpc.
  2:{ exists tasks, s. by rewrite pool_step_idle by auto. }
  destruct (images !! i) as [img|] eqn:Himg.
  2:{ exists tasks, s. by rewrite pool_step_idle by auto. }
  destruct (decide (pc = Pending ∧ blocked mw tasks = true)) as [[-> Hb]|Hfree].
  { exists tasks, s. by rewrite pool_step_idle by auto. }
  destruct (pool_step_moves env mw ident images tasks s i pc Hpc)
    as (pc' & s' & Hstep & Hrank); [by eexists| |].
  { intros ->. destruct (blocked mw tasks); [|done]. by destruct Hfree. }
  exists (<[i := pc']> tasks), s'. split; [done|].
  pose proof (running_insert tasks i pc pc' Hpc) as Hins.
  destruct pc as [|path|path text|text|r]; simpl in *.
  - assert (blocked mw tasks = false) as Hb.
    { destruct (blocked mw tasks); [|done]. by destruct Hfree. }
    unfold blocked in Hb. apply negb_false_iff, Z.ltb_lt in Hb.
    fold (running tasks) in Hb. destruct (is_busy pc'); lia.
  - destruct Hrank as [Hr|[_ [=]]]. destruct (is_busy pc'); lia.
  - destruct Hrank as [Hr|[_ [=]]]. destruct (is_busy pc'); lia.
  - destruct Hrank as [Hr|[_ [=]]]. destruct pc'; simpl in *; lia.
  - destruct Hrank as [Hr|[-> _]]; [lia|]. simpl in *. lia.
Qed.

(** The text that the pool and the reassembly yield. *)
Lemma reassembled_text mw sched dir images (w : world image) :
  0 < mw →
  (process_pages env mw sched dir images w).1
  = Ret (document (recorded_sections env (sched_ident sched) images dir)).
Proof.
  intros Hmw.
  destruct (joined_outcome mw sched images dir w Hmw) as (tasks & s' & _ & -> & Hres).
  simpl. rewrite combine_results_present.
  by rewrite (present_ext _ (outcome env (sched_ident sched) images dir)).
Qed.

End PoolFacts.

(** ** The run, once it has reached the pool *)

Section RunMore.

Context {image : Type}.
Variable env : Env image.

(** What lines 148-162 do, case by case. *)
Lemma finish_run_spec out text (w : world image) :
  finish_run env out text w =
  if bool_decide (work_dir ∈ dirs w) && dir_is_empty env w work_dir then
    let w1 := World (files w) (dirs w ∖ {[work_dir]})
                (stdout w ++ [nl +:+ "Processing completed in " +:+ elapsed env
                              +:+ " seconds"]) in
    if truthy out then
      match open_write_fault env (default "" out) with
      | Some e => (Raise e, w1)
      | None =>
          (Ret (Some text),
           World (<[default "" out := TextFile text]> (files w1)) (dirs w1)
             (stdout w1 ++ ["Extracted text saved to: " +:+ default "" out]))
      end
    else (Ret (Some text), w1)
  else (Raise (Exn OSError ("cannot remove directory: " +:+ work_dir)), w).
Proof.
  unfold finish_run. unfold mbind at 1, M_bind at 1. unfold os_rmdir.
  destruct (bool_decide (work_dir ∈ dirs w) && dir_is_empty env w work_dir); [|done].
  unfold mbind at 1, M_bind at 1. simpl.
  unfold mbind at 1, M_bind at 1.
  destruct (truthy out); [|done].
  unfold mbind at 1, M_bind at 1. unfold write_text.
  by destruct (open_write_fault env (default "" out)).
Qed.

(** A run that reaches the pool: the state in which the pool joins, and
    what the run makes of it. *)
Lemma run_reaches_pool sched pdf out mt (w : world image) images :
  reaches_pool env w pdf mt images →
  ∃ s',
    extract_text_from_pdf env sched pdf out mt w
    = try_except
        (finish_run env out (document (recorded_sections env (sched_ident sched) images
                                         work_dir)))
        run_failed (os s') ∧
    dirs (os s') = (if path_exists w work_dir then dirs w else {[work_dir]} ∪ dirs w) ∧
    (∀ i img, images !! i = Some img →
       leaves_file env (path_of env (sched_ident sched) work_dir i) img = true →
       files (os s') !! path_of env (sched_ident sched) work_dir i = Some (ImageFile img)) ∧
    (∀ f x, files (os s') !! f = Some x →
       files w !! f = Some x ∨
       ∃ i img, images !! i = Some img ∧
                leaves_file env (path_of env (sched_ident sched) work_dir i) img = true ∧
                f = path_of env (sched_ident sched) work_dir i) ∧
    (∀ f, (∀ i, (i < length images)%nat → f ≠ path_of env (sched_ident sched) work_dir i) →
          files (os s') !! f = files w !! f).
Proof.
  intros (Hcheck & Hpdf & Hconv & Hmw).
  rewrite extract_unfold.
  destruct (rasterized_world env pdf w) as [lines Hw2].
  destruct (check_dependencies env w) as [r w1] eqn:Hc.
  simpl in Hcheck. cbn [snd] in Hw2. subst r.
  destruct (check_dependencies_frame env w) as [lines1 Hw1]. rewrite Hc in Hw1.
  simpl in Hw1.
  cbv beta iota. rewrite (path_exists_frame w w1) by (by rewrite Hw1).
  rewrite Hpdf, Hconv. cbv zeta. rewrite Hw2. clear Hw1 Hw2 Hc w1.
  set (w2 := World _ _ _).
  unfold try_except at 1. rewrite pipeline_unfold.
  destruct (process_pages_joined env (pool_size env mt) sched images work_dir
              (prepared env mt images w2) Hmw)
    as (tasks & s' & Hpool & Hpages & Hdirs & Htasks & _ & Hheld & Hframe).
  pose proof (reassembled_text env (pool_size env mt) sched work_dir images
                (prepared env mt images w2) Hmw) as Htext.
  rewrite Hpages in *. simpl in Htext. injection Htext as ->.
  exists s'. split; [done|]. split; [by rewrite Hdirs, prepared_dirs|].
  rewrite prepared_files in Hheld, Hframe. split; [|by split].
  intros i img Himg Hleft. by destruct (Htasks i img Himg) as (_ & _ & ->).
Qed.


(** In a clean working directory, when no task leaves its file, the pool
    joins with the files as they were and the directory empty. *)
Lemma run_clean sched pdf out mt (w : world image) images :
  reaches_pool env w pdf mt images →
  work_dir_clean env w →
  (∀ i img, images !! i = Some img →
     leaves_file env (path_of env (sched_ident sched) work_dir i) img = false) →
  ∃ w1,
    extract_text_from_pdf env sched pdf out mt w
    = try_except
        (finish_run env out (document (recorded_sections env (sched_ident sched) images
                                         work_dir)))
        run_failed w1 ∧
    files w1 = files w ∧
    dirs w1 ∖ {[work_dir]} = dirs w ∖ {[work_dir]} ∧
    bool_decide (work_dir ∈ dirs w1) && dir_is_empty env w1 work_dir = true.
Proof.
  intros Hreach [Hnofile Hclean] Hnone.
  destruct (run_reaches_pool sched pdf out mt w images Hreach)
    as (s' & Hrun & Hdirs & _ & Hheld & Hframe).
  apply bool_decide_eq_true in Hclean.
  assert (∀ p, is_child env work_dir p = true → files w !! p = None) as Hout.
  { intros p Hp. destruct (files w !! p) as [x|] eqn:Hx; [|done].
    rewrite (Hclean p) in Hp; [done|].
    unfold entries. apply elem_of_union_l, elem_of_dom. by eexists. }
  assert (files (os s') = files w) as Hfiles.
  { apply map_eq. intros f.
    destruct (is_child env work_dir f) eqn:Hc.
    - rewrite (Hout f Hc). destruct (files (os s') !! f) as [x|] eqn:Hx; [|done].
      destruct (Hheld f x Hx) as [Hw|(i & img & Himg & Hleft & _)].
      + by rewrite (Hout f Hc) in Hw.
      + by rewrite Hnone in Hleft.
    - apply Hframe. intros i _ ->. by rewrite is_child_path_of in Hc. }
  exists (os s'). split; [done|]. split; [done|].
  assert (path_exists w work_dir = bool_decide (work_dir ∈ dirs w)) as Hex.
  { unfold path_exists. rewrite Hnofile.
    by rewrite (bool_decide_eq_false_2 (is_Some None)) by (by intros [? ?]). }
  rewrite Hex in Hdirs. split.
  - rewrite Hdirs. case_bool_decide as Hin; [done|].
    apply set_eq. intros d.
    rewrite !elem_of_difference, elem_of_union, elem_of_singleton. tauto.
  - apply andb_true_iff. split.
    + apply bool_decide_eq_true. rewrite Hdirs. case_bool_decide as Hin; [done|].
      by apply elem_of_union_l, elem_of_singleton.
    + apply bool_decide_eq_true. intros p Hp. simpl.
      unfold entries in Hp. rewrite Hfiles, Hdirs in Hp.
      apply elem_of_union in Hp as [Hp|Hp].
      * apply (Hclean p). unfold entries. by apply elem_of_union_l.
      * case_bool_decide as Hin.
        -- apply (Hclean p). unfold entries. by apply elem_of_union_r.
        -- apply elem_of_union in Hp as [->%elem_of_singleton|Hp].
           ++ apply is_child_self.
           ++ apply (Hclean p). unfold entries. by apply elem_of_union_r.
Qed.

(** An entry under the working directory that is none of the transient
    paths of the run survives the pool, and [os.rmdir] fails. *)
Lemma run_stale sched pdf out mt (w : world image) images p :
  reaches_pool env w pdf mt images →
  p ∈ entries w →
  is_child env work_dir p = true →
  (∀ i, (i < length images)%nat → p ≠ path_of env (sched_ident sched) work_dir i) →
  ∃ w', extract_text_from_pdf env sched pdf out mt w = (Ret None, w') ∧
        p ∈ entries w' ∧
        last (stdout w')
        = Some ("An error occurred: cannot remove directory: " +:+ work_dir).
Proof.
  intros Hreach Hp Hchild Hfresh.
  destruct (run_reaches_pool sched pdf out mt w images Hreach)
    as (s' & -> & Hdirs & _ & _ & Hframe).
  assert (p ∈ entries (os s')) as Hp'.
  { unfold entries in *. apply elem_of_union in Hp as [Hp|Hp].
    - apply elem_of_union_l, elem_of_dom. rewrite Hframe by done.
      by apply elem_of_dom.
    - apply elem_of_union_r. rewrite Hdirs.
      destruct (path_exists w work_dir); [done|]. by apply elem_of_union_r. }
  unfold try_except. rewrite finish_run_spec.
  assert (dir_is_empty env (os s') work_dir = false) as ->.
  { apply bool_decide_eq_false. intros H. specialize (H p Hp'). simpl in H. congruence. }
  rewrite andb_false_r. eexists. split; [done|]. split; [done|].
  simpl. by rewrite last_snoc.
Qed.

Lemma run_failed_world e (w : world image) :
  run_failed e w
  = (Ret None, World (files w) (dirs w) (stdout w ++ ["An error occurred: " +:+ exn_str e])).
Proof. done. Qed.

(** The run keeps its hands off everything but the working directory and
    the output file. *)
Lemma run_frame sched pdf out mt (w : world image) f :
  is_child env work_dir f = false →
  (truthy out = true → f ≠ default "" out) →
  files (extract_text_from_pdf env sched pdf out mt w).2 !! f = files w !! f ∧
  ∀ d, d ≠ work_dir →
       (d ∈ dirs (extract_text_from_pdf env sched pdf out mt w).2 ↔ d ∈ dirs w).
Proof.
  intros Hchild Hout.
  rewrite extract_unfold.
  destruct (rasterized_world env pdf w) as [lines Hw2].
  destruct (check_dependencies_frame env w) as [lines1 Hw1].
  destruct (check_dependencies env w) as [[[]|e] w1]; cbn [snd] in Hw1, Hw2; subst w1;
    cbv beta iota; [|done..].
  destruct (path_exists _ pdf); [|done].
  cbv zeta. rewrite Hw2. clear Hw2.
  destruct (convert_from_path env pdf) as [images|e]; [|done].
  set (w2 := World _ _ _).
  unfold try_except. rewrite pipeline_unfold.
  assert (∀ d, d ≠ work_dir →
            (d ∈ dirs (prepared env mt images w2) ↔ d ∈ dirs w)) as Hprep.
  { intros d Hd. rewrite prepared_dirs. simpl.
    destruct (path_exists w2 work_dir); [done|].
    rewrite elem_of_union, elem_of_singleton. tauto. }
  destruct (decide (0 < pool_size env mt)) as [Hmw|Hmw].
  - destruct (process_pages_joined env (pool_size env mt) sched images work_dir
                (prepared env mt images w2) Hmw)
      as (tasks & s' & _ & -> & Hdirs & _ & _ & _ & Hframe).
    rewrite prepared_files in Hframe.
    assert (files (os s') !! f = files w !! f) as Hf.
    { apply Hframe. intros i _ ->. by rewrite is_child_path_of in Hchild. }
    rewrite finish_run_spec.
    destruct (bool_decide (work_dir ∈ dirs (os s')) && _); cbv zeta.
    + assert (∀ d, d ≠ work_dir →
                (d ∈ dirs (os s') ∖ {[work_dir]} ↔ d ∈ dirs w)) as Hd.
      { intros d Hne. rewrite elem_of_difference, elem_of_singleton, Hdirs.
        rewrite (Hprep d Hne). tauto. }
      destruct (truthy out); [|done].
      destruct (open_write_fault env (default "" out)); [done|].
      simpl. split; [|done]. rewrite lookup_insert_ne; [done|].
      intros Heq. by apply Hout.
    + rewrite run_failed_world. simpl. split; [done|].
      intros d Hne. rewrite Hdirs. by apply Hprep.
  - unfold process_pages. rewrite thread_pool_no_worker by lia.
    rewrite run_failed_world. cbn [snd files dirs os]. by rewrite prepared_files.
Qed.

End RunMore.

(** ** Edge cases of the run *)

Section RunEdge.
Context {image : Type}.
Variable env : Env image.

Lemma recorded_sections_nil ident images dir :
  (∀ i img, images !! i = Some img →
     recorded env (path_of env ident dir i) img = None) →
  recorded_sections env ident images dir = [].
Proof.
  intros Hnone. unfold recorded_sections.
  induction (seqZ 1 (Z.of_nat (length images))) as [|q pages IH]; [done|].
  csimpl. rewrite IH.
  assert (outcome env ident images dir q = None) as ->; [|done].
  unfold outcome. case_bool_decide; [|done].
  destruct (images !! Z.to_nat (q - 1)) as [img|] eqn:Himg; [|done].
  simpl. by apply Hnone.
Qed.

(** Without a worker the run stops at the pool constructor, after the
    working directory has been made. *)
Lemma run_no_worker sched pdf out mt (w : world image) images :
  (check_dependencies env w).1 = Ret true →
  path_exists w pdf = true →
  convert_from_path env pdf = Ret images →
  pool_size env mt ≤ 0 →
  ∃ w', extract_text_from_pdf env sched pdf out mt w = (Ret None, w') ∧
        files w' = files w ∧
        dirs w' = (if path_exists w work_dir then dirs w else {[work_dir]} ∪ dirs w).
Proof.
  intros Hcheck Hpdf Hconv Hmw.
  rewrite extract_unfold.
  destruct (rasterized_world env pdf w) as [lines Hw2].
  destruct (check_dependencies env w) as [r w1] eqn:Hc.
  simpl in Hcheck. cbn [snd] in Hw2. subst r.
  destruct (check_dependencies_frame env w) as [lines1 Hw1]. rewrite Hc in Hw1.
  simpl in Hw1.
  cbv beta iota. rewrite (path_exists_frame w w1) by (by rewrite Hw1).
  rewrite Hpdf, Hconv. cbv zeta. rewrite Hw2. clear Hw1 Hw2 Hc w1.
  unfold try_except. rewrite pipeline_unfold.
  unfold process_pages. rewrite thread_pool_no_worker by done.
  rewrite run_failed_world. eexists. split; [done|].
  cbn [files dirs os]. by rewrite prepared_files, prepared_dirs.
Qed.

End RunEdge.

(** ** The reports of the pool *)

Section Log.
Context {image : Type}.
Variable env : Env image.
Variables (ident : nat → Z) (images : list image) (dir : string).
Variables (files0 : gmap string (file image)) (dirs0 : gset string).
Variable stdout0 : list string.

Local Abbreviation path_of := (path_of env ident dir).
Local Abbreviation task_ok := (task_ok env ident dir).
Local Abbreviation pool_inv := (pool_inv env ident images dir files0 dirs0).
Local Abbreviation page_report := (page_report env ident images dir).
Local Abbreviation log_inv := (log_inv env ident images dir stdout0).

(** A task prints one line, when it ends. *)
Lemma task_step_stdout i img pc (s : state image) pc' s' :
  temp_dir (self s) = dir → task_ok i img pc s → images !! i = Some img →
  task_step env (ident i) (page_of i, img) pc s = (Ret pc', s') →
  stdout (os s') =
  (stdout (os s) ++ if is_done pc' && negb (is_done pc) then [page_report i] else [])%list.
Proof.
  destruct s as [[d rs] [fs ds out]]. simpl. intros -> Hok Himg.
  unfold page_report. rewrite Himg.
  unfold task_step, try_except, task_action.
  destruct pc as [|path|path text|text|r]; simpl in Hok.
  - unfold mbind, M_bind, get_state, in_world, image_save, page_failed; simpl.
    fold (path_of i). unfold page_attempt.
    destruct (image_save_fault env img (path_of i)) as [e|] eqn:Hsave; simpl.
    + by intros [= <- <-].
    + intros [= <- <-]. simpl. by rewrite app_nil_r.
  - destruct Hok as (-> & Hsave & Hfile & Hres).
    unfold mbind, M_bind, in_world, ocr_file, page_failed; simpl.
    rewrite Hfile. unfold page_attempt. rewrite Hsave.
    destruct (image_to_string env img) as [text|e] eqn:Hocr; simpl.
    + intros [= <- <-]. simpl. by rewrite app_nil_r.
    + by intros [= <- <-].
  - destruct Hok as (-> & Hsave & Hocr & Hfile & Hres).
    unfold mbind, M_bind, in_world, os_remove, page_failed; simpl.
    unfold page_attempt. rewrite Hsave, Hocr.
    destruct (remove_fault env (path_of i)) as [e|] eqn:Hrm; simpl.
    + by intros [= <- <-].
    + rewrite Hfile. intros [= <- <-]. simpl. by rewrite app_nil_r.
  - destruct Hok as (Hatt & Hres).
    unfold mbind, M_bind, in_world, store_result, print; simpl.
    rewrite Hatt. by intros [= <- <-].
  - unfold mret, M_ret. intros [= <- <-]. simpl. by rewrite app_nil_r.
Qed.

Lemma pool_step_log mw tasks (s : state image) i :
  pool_inv tasks s → log_inv tasks s →
  ∃ tasks' s', pool_step env mw ident images tasks i s = (Ret tasks', s') ∧
               pool_inv tasks' s' ∧ log_inv tasks' s'.
Proof.
  intros Hinv Hlog.
  destruct (pool_step_inv env ident images dir files0 dirs0 mw tasks s i Hinv)
    as (tasks' & s' & Hstep & Hinv').
  exists tasks', s'. split; [done|]. split; [done|].
  unfold pool_step in Hstep.
  destruct (tasks !! i) as [pc|] eqn:Hpc; [|by injection Hstep as <- <-].
  destruct (images !! i) as [img|] eqn:Himg; [|by injection Hstep as <- <-].
  destruct (is_pending pc && _); [by injection Hstep as <- <-|].
  unfold mbind, M_bind in Hstep.
  destruct (task_step env (ident i) (Z.of_nat i + 1, img) pc s) as [[pc'|e] s1] eqn:Hts;
    [|done].
  injection Hstep as <- <-.
  destruct Hinv as [Hlen Hdir _ Htasks _ _ _].
  pose proof (task_step_stdout i img pc s pc' s1 Hdir (Htasks _ _ _ Hpc Himg) Himg Hts)
    as Hout.
  destruct (task_step_progress env (ident i) (Z.of_nat i + 1, img) pc s)
    as (pc'' & s'' & Hts' & Hrank).
  rewrite Hts in Hts'. injection Hts' as <- <-.
  assert (i < length tasks)%nat as Hi by (by eapply lookup_lt_Some).
  destruct Hlog as (finished & Hnd & Hfin & Hstd).
  destruct (is_done pc' && negb (is_done pc)) eqn:Hnew.
  - apply andb_true_iff in Hnew as [Hd' Hd%negb_true_iff].
    exists (finished ++ [i])%list. split; [|split].
    + apply NoDup_app. split; [done|]. split; [|apply NoDup_singleton].
      intros j Hj ->%list_elem_of_singleton.
      apply Hfin in Hj as [r Hr]. rewrite Hpc in Hr. injection Hr as ->. done.
    + intros j. rewrite elem_of_app, list_elem_of_singleton.
      destruct (decide (j = i)) as [->|Hne].
      * rewrite list_lookup_insert_eq by done. split; [|by auto].
        intros _. destruct pc'; try done. by eexists.
      * rewrite list_lookup_insert_ne by done. rewrite Hfin.
        split; [intros [H|H]; [done|by destruct Hne]|by left].
    + rewrite Hout, Hstd, fmap_app. simpl. by rewrite <- (assoc_L (++)).
  - exists finished. split; [done|]. split.
    + intros j. rewrite Hfin.
      destruct (decide (j = i)) as [->|Hne].
      * rewrite list_lookup_insert_eq by done. rewrite Hpc.
        split.
        -- intros [r [= ->]]. destruct Hrank as [Hr|[-> _]]; [simpl in Hr; lia|].
           by eexists.
        -- intros [r [= ->]]. simpl in Hnew. destruct pc; try done. by eexists.
      * by rewrite list_lookup_insert_ne.
    + rewrite Hout, Hstd. by rewrite app_nil_r.
Qed.

Lemma run_order_log mw order tasks (s : state image) :
  pool_inv tasks s → log_inv tasks s →
  ∃ tasks' s', run_order env mw ident images order tasks s = (Ret tasks', s') ∧
               pool_inv tasks' s' ∧ log_inv tasks' s'.
Proof.
  revert tasks s. induction order as [|i order IH]; intros tasks s Hinv Hlog.
  - by eexists _, _.
  - destruct (pool_step_log mw tasks s i Hinv Hlog) as (tasks1 & s1 & Hstep & Hinv1 & Hlog1).
    destruct (IH _ _ Hinv1 Hlog1) as (tasks' & s' & Hrun & Hinv' & Hlog').
    exists tasks', s'. split; [|done].
    simpl. unfold mbind, M_bind. by rewrite Hstep.
Qed.

End Log.

Section Reports.
Context {image : Type}.
Variable env : Env image.

(** The pool prints one report for each page, in the order in which the
    tasks end. *)
Lemma thread_pool_reports mw sched images dir (w : world image) :
  0 < mw →
  ∃ tasks s' finished,
    thread_pool env mw sched images (State {| temp_dir := dir; results := ∅ |} w)
      = (Ret tasks, s') ∧
    finished ≡ₚ seq 0 (length images) ∧
    stdout (os s')
    = (stdout w ++ (page_report env (sched_ident sched) images dir <$> finished))%list.
Proof.
  intros Hmw.
  destruct (thread_pool_joined env mw sched images dir w Hmw)
    as (tasks & s' & Hpool & Hinv & Hdone).
  assert (log_inv env (sched_ident sched) images dir (stdout w)
            (replicate (length images) Pending)
            (State {| temp_dir := dir; results := ∅ |} w)) as Hlog0.
  { exists []. split; [apply NoDup_nil_2|]. split; [|by rewrite app_nil_r].
    intros i. split; [by intros ?%elem_of_nil|].
    by intros [r [[=] _]%lookup_replicate]. }
  destruct (run_order_log env (sched_ident sched) images dir (files w) (dirs w) (stdout w)
              mw (sched_order sched ++ join_order (length images)) _ _
              (pool_inv_init env _ images dir w) Hlog0)
    as (tasks1 & s1 & Hrun & _ & finished & Hnd & Hfin & Hstd).
  unfold thread_pool in Hpool.
  assert ((mw <=? 0) = false) as Hle by (apply Z.leb_gt; lia).
  rewrite Hle, Hrun in Hpool. injection Hpool as <- <-.
  exists tasks1, s1, finished. split.
  { unfold thread_pool. by rewrite Hle. }
  split; [|done].
  destruct Hinv as [Hlen _ _ _ _ _ _].
  apply NoDup_Permutation; [done|apply NoDup_seq|].
  intros i. rewrite Hfin, elem_of_seq. split.
  - intros [r Hr%lookup_lt_Some]. lia.
  - intros [_ Hi]. destruct (lookup_lt_is_Some_2 tasks1 i) as [pc Hpc]; [lia|].
    pose proof (proj1 (Forall_lookup _ _) Hdone i pc Hpc) as Hd.
    destruct pc; try done. by eexists.
Qed.

End Reports.


(** ** Isolation of the tasks and repetition of the run *)

Section Isolation.
Context {image : Type}.
Variable env : Env image.

(** What a call of [process_page] returns. *)
Lemma process_page_returns tid p img (s : state image) :
  (process_page env tid (p, img) s).1
  = Ret (p, default "" (recorded env (image_path (os_sep env) (temp_dir (self s)) p tid)
                          img)).
Proof.
  rewrite process_page_spec. cbv zeta. unfold recorded, page_attempt.
  destruct (image_save_fault env img _); [done|].
  destruct (image_to_string env img); [|done].
  by destruct (remove_fault env _).
Qed.

Lemma ends_with_char_append c a b :
  b ≠ "" → PyStr.ends_with_char c (a +:+ b) = PyStr.ends_with_char c b.
Proof.
  intros Hb. induction a as [|x a IH]; [done|].
  rewrite append_cons. simpl. rewrite IH.
  destruct (a +:+ b) eqn:Hab; [|done].
  destruct a; [|done]. by rewrite append_empty_l in Hab.
Qed.

Lemma join_ends_with c sep a b :
  b ≠ "" → PyStr.ends_with_char c (OsPath.join sep a b) = PyStr.ends_with_char c b.
Proof.
  intros Hb. unfold OsPath.join.
  destruct (PyStr.starts_with_char sep b); [done|].
  destruct (_ || _); [by apply ends_with_char_append|].
  rewrite ends_with_char_append by done.
  destruct b; [done|]. simpl. by destruct b.
Qed.

(** The probe for poppler does not look at the working directory. *)
Lemma poppler_found_frame (w w' : world image) :
  files w' = files w →
  (∀ d, d ≠ work_dir → d ∈ dirs w' ↔ d ∈ dirs w) →
  poppler_found env w' = poppler_found env w.
Proof.
  intros Hf Hd. unfold poppler_found. destruct (is_win env); [|done].
  induction (environ_PATH env) as [|p ps IH]; [done|].
  simpl. rewrite IH. f_equal.
  unfold path_exists. rewrite Hf. f_equal.
  apply bool_decide_ext, Hd. intros Heq.
  assert (PyStr.ends_with_char "e" (OsPath.join (os_sep env) p "pdftoppm.exe") = true)
    as He by (by rewrite join_ends_with).
  by rewrite Heq in He.
Qed.

Lemma check_dependencies_passes (w : world image) :
  (check_dependencies env w).1 = Ret true ↔
  poppler_found env w = true ∧ ∃ v, get_tesseract_version env = Ret v.
Proof.
  cbv [check_dependencies check_tesseract poppler_found mbind M_bind get_state
       mret M_ret print raise].
  destruct (is_win env).
  - destruct (existsb _ _); simpl; [|split; [done|by intros [[=] _]]].
    destruct (get_tesseract_version env) as [v|e]; simpl; [split; [eauto|done]|].
    split; [by destruct (exn_cls e)|by intros [_ [? [=]]]].
  - destruct (which env "pdftoppm") as [p|]; simpl; [|split; [done|by intros [[=] _]]].
    destruct (get_tesseract_version env) as [v|e]; simpl; [split; [eauto|done]|].
    split; [by destruct (exn_cls e)|by intros [_ [? [=]]]].
Qed.

(** A run that reaches the pool in a clean directory, with a writable
    output and no task leaving its file, completes. *)
Lemma run_completes sched pdf out mt (w : world image) images :
  reaches_pool env w pdf mt images →
  work_dir_clean env w →
  (truthy out = true → open_write_fault env (default "" out) = None) →
  (∀ i img, images !! i = Some img →
     leaves_file env (path_of env (sched_ident sched) work_dir i) img = false) →
  ∃ w',
    extract_text_from_pdf env sched pdf out mt w
    = (Ret (Some (document (recorded_sections env (sched_ident sched) images work_dir))),
       w') ∧
    files w'
    = (if truthy out
       then <[default "" out :=
                TextFile (document (recorded_sections env (sched_ident sched) images
                                      work_dir))]> (files w)
       else files w) ∧
    dirs w' = dirs w ∖ {[work_dir]}.
Proof.
  intros Hreach Hclean Hout Hnone.
  destruct (run_clean env sched pdf out mt w images Hreach Hclean Hnone)
    as (w1 & -> & Hfiles & Hdirs & Hrm).
  unfold try_except. rewrite finish_run_spec, Hrm. cbv zeta.
  destruct (truthy out); [|by eexists].
  rewrite Hout by done. eexists. split; [done|]. simpl. by rewrite Hfiles.
Qed.

End Isolation.

(** ** The preflight *)

(** X1.  [check_dependencies] returns [True] exactly when the probe for
    poppler succeeds and tesseract answers the version query; it then prints
    nothing.  Whatever it returns, it leaves every file and directory as it
    was. *)
Theorem check_dependencies_verdict {image : Type} (env : Env image) (w : world image) :
  ((check_dependencies env w).1 = Ret true ↔
   poppler_found env w = true ∧ ∃ v, get_tesseract_version env = Ret v) ∧
  ((check_dependencies env w).1 = Ret true → (check_dependencies env w).2 = w) ∧
  files (check_dependencies env w).2 = files w ∧
  dirs (check_dependencies env w).2 = dirs w.
Proof.
  split; [|split].
  - cbv [check_dependencies check_tesseract poppler_found mbind M_bind get_state
         mret M_ret print raise].
    destruct (is_win env).
    + destruct (existsb _ _); simpl; [|split; [done|by intros [[=] _]]].
      destruct (get_tesseract_version env) as [v|e]; simpl; [split; [eauto|done]|].
      split; [by destruct (exn_cls e)|by intros [_ [? [=]]]].
    + destruct (which env "pdftoppm") as [p|]; simpl; [|split; [done|by intros [[=] _]]].
      destruct (get_tesseract_version env) as [v|e]; simpl; [split; [eauto|done]|].
      split; [by destruct (exn_cls e)|by intros [_ [? [=]]]].
  - cbv [check_dependencies check_tesseract mbind M_bind get_state
         mret M_ret print raise].
    destruct (is_win env).
    + destruct (existsb _ _); simpl; [|done].
      destruct (get_tesseract_version env) as [v|e]; simpl; [done|].
      by destruct (exn_cls e).
    + destruct (which env "pdftoppm") as [p|]; simpl; [|done].
      destruct (get_tesseract_version env) as [v|e]; simpl; [done|].
      by destruct (exn_cls e).
  - destruct (check_dependencies_frame env w) as [lines ->]. done.
Qed.





(** ** The page task and the pool *)

(** X5.  Whatever the schedule and the number of workers, the text that
    the pool and the reassembly yield is made of the sections of exactly the
    pages whose task succeeded, in ascending page order: the completion order
    has no influence on it. *)
Theorem reassembled_text_is_deterministic {image : Type} (env : Env image)
    (max_workers : Z) (sched : schedule) (dir : string) (images : list image)
    (w : world image) :
  0 < max_workers →
  (process_pages env max_workers sched dir images w).1
  = Ret (document (recorded_sections env (sched_ident sched) images dir)).
Proof. apply reassembled_text. Qed.

Lemma reassembled_text_is_deterministic_witness :
  0 < 3 ∧
  (process_pages (Demo.env Demo.three_pages) 3
     (Schedule [1%nat; 1%nat; 0%nat; 2%nat] (λ _, 9)) work_dir Demo.three_pages
     Demo.w_dir).1
  = Ret (document (recorded_sections (Demo.env Demo.three_pages)
                     (sched_ident (Schedule [1%nat; 1%nat; 0%nat; 2%nat] (λ _, 9)))
                     Demo.three_pages work_dir)).
Proof.
  split; [lia|].
  apply (reassembled_text_is_deterministic (Demo.env Demo.three_pages) 3
           (Schedule [1%nat; 1%nat; 0%nat; 2%nat] (λ _, 9)) work_dir Demo.three_pages
           Demo.w_dir).
  lia.
Defined.



(** X7.  A call of [process_page] whose persist, OCR and cleanup succeed
    returns the text, records it under its page number, prints the progress
    line and leaves no file at its transient path; whatever the outcome of
    the call, no other path, no other key of the results and no directory is
    touched. *)
Theorem process_page_effect {image : Type} (env : Env image) (ident page_num : Z)
    (img : image) (s : state image) :
  let path := image_path (os_sep env) (temp_dir (self s)) page_num ident in
  let s' := (process_page env ident (page_num, img) s).2 in
  (∀ page_text, page_attempt env path img = Ret page_text →
     (process_page env ident (page_num, img) s).1 = Ret (page_num, page_text) ∧
     results (self s') !! page_num = Some page_text ∧
     files (os s') !! path = None ∧
     stdout (os s') = (stdout (os s) ++ [completed_line page_num])%list) ∧
  (∀ f, f ≠ path → files (os s') !! f = files (os s) !! f) ∧
  (∀ q, q ≠ page_num → results (self s') !! q = results (self s) !! q) ∧
  dirs (os s') = dirs (os s) ∧
  temp_dir (self s') = temp_dir (self s).
Proof.
  cbv zeta. rewrite process_page_spec. cbv zeta.
  set (path := image_path _ _ _ _).
  destruct (image_save_fault env img path) as [e|] eqn:Hsave.
  { simpl. split; [|by repeat split].
    intros t Ht. unfold page_attempt in Ht. by rewrite Hsave in Ht. }
  destruct (page_attempt env path img) as [t|e]; simpl.
  - split; [|split; [|split; [|by split]]].
    + intros ? [= <-]. by rewrite lookup_insert_eq, lookup_delete_eq.
    + intros f Hf. by rewrite lookup_delete_ne, lookup_insert_ne.
    + by intros q Hq; rewrite lookup_insert_ne.
  - split; [done|]. split; [|by split].
    intros f Hf. by rewrite lookup_insert_ne.
Qed.

(** ** The run as a whole *)

(** X8.  A run that reaches the pool in a clean working directory, with a
    writable output, and in which no task leaves its transient file behind
    (every page succeeds, or fails before anything is written), returns the
    document of the pages that succeeded.  Afterwards the working directory
    is gone, the output file, if one was asked for, holds the document, and
    every other file is as before. *)
Theorem run_completes_when_no_file_is_left {image : Type} (env : Env image)
    (sched : schedule) (pdf_path : string) (output_file : option string)
    (max_threads : option Z) (w : world image) (images : list image) :
  reaches_pool env w pdf_path max_threads images →
  work_dir_clean env w →
  (truthy output_file = true → open_write_fault env (default "" output_file) = None) →
  (∀ i img, images !! i = Some img →
     leaves_file env (path_of env (sched_ident sched) work_dir i) img = false) →
  ∃ w',
    extract_text_from_pdf env sched pdf_path output_file max_threads w
    = (Ret (Some (document (recorded_sections env (sched_ident sched) images work_dir))),
       w') ∧
    files w'
    = (if truthy output_file
       then <[default "" output_file :=
                TextFile (document (recorded_sections env (sched_ident sched) images
                                      work_dir))]> (files w)
       else files w) ∧
    dirs w' = dirs w ∖ {[work_dir]}.
Proof.
  intros Hreach Hclean Hout Hnone.
  destruct (run_clean env sched pdf_path output_file max_threads w images
              Hreach Hclean Hnone) as (w1 & -> & Hfiles & Hdirs & Hrm).
  unfold try_except. rewrite finish_run_spec, Hrm. cbv zeta.
  destruct (truthy output_file); [|by eexists].
  rewrite Hout by done. eexists. split; [done|]. simpl. by rewrite Hfiles.
Qed.

Lemma run_completes_when_no_file_is_left_witness :
  reaches_pool (Sample.env_faulty ["A"; "B"; "C"]) Demo.w0 "in.pdf" (Some 2)
    ["A"; "B"; "C"] ∧
  work_dir_clean (Sample.env_faulty ["A"; "B"; "C"]) Demo.w0 ∧
  ∃ w',
    extract_text_from_pdf (Sample.env_faulty ["A"; "B"; "C"]) Demo.sched "in.pdf"
      (Some "out.txt") (Some 2) Demo.w0
    = (Ret (Some (document (recorded_sections (Sample.env_faulty ["A"; "B"; "C"])
                              (sched_ident Demo.sched) ["A"; "B"; "C"] work_dir))),
       w') ∧
    files w'
    = (if truthy (Some "out.txt")
       then <[default "" (Some "out.txt") :=
                TextFile (document (recorded_sections (Sample.env_faulty ["A"; "B"; "C"])
                                      (sched_ident Demo.sched) ["A"; "B"; "C"] work_dir))]>
              (files Demo.w0)
       else files Demo.w0) ∧
    dirs w' = dirs Demo.w0 ∖ {[work_dir]}.
Proof.
  assert (reaches_pool (Sample.env_faulty ["A"; "B"; "C"]) Demo.w0 "in.pdf" (Some 2)
            ["A"; "B"; "C"]) as Hreach.
  { split; [reflexivity|]. split; [by vm_compute|]. split; [reflexivity|reflexivity]. }
  assert (work_dir_clean (Sample.env_faulty ["A"; "B"; "C"]) Demo.w0) as Hclean.
  { split; by vm_compute. }
  split; [exact Hreach|]. split; [exact Hclean|].
  apply (run_completes_when_no_file_is_left (Sample.env_faulty ["A"; "B"; "C"]) Demo.sched
           "in.pdf" (Some "out.txt") (Some 2) Demo.w0 ["A"; "B"; "C"] Hreach Hclean).
  - reflexivity.
  - intros [|[|[|i]]] img; simpl; intros [= <-]; reflexivity.
Defined.

(** X9.  When the output file cannot be opened, a run that was otherwise
    complete returns [None]: the document is lost, although the working
    directory has already been removed; no file is written. *)
Theorem unwritable_output_loses_the_document {image : Type} (env : Env image)
    (sched : schedule) (pdf_path : string) (output_file : option string)
    (max_threads : option Z) (w : world image) (images : list image) (e : exn) :
  reaches_pool env w pdf_path max_threads images →
  work_dir_clean env w →
  truthy output_file = true →
  open_write_fault env (default "" output_file) = Some e →
  (∀ i img, images !! i = Some img →
     leaves_file env (path_of env (sched_ident sched) work_dir i) img = false) →
  ∃ w',
    extract_text_from_pdf env sched pdf_path output_file max_threads w = (Ret None, w') ∧
    files w' = files w ∧
    dirs w' = dirs w ∖ {[work_dir]} ∧
    last (stdout w') = Some ("An error occurred: " +:+ exn_str e).
Proof.
  intros Hreach Hclean Hout Hfault Hnone.
  destruct (run_clean env sched pdf_path output_file max_threads w images
              Hreach Hclean Hnone) as (w1 & -> & Hfiles & Hdirs & Hrm).
  unfold try_except. rewrite finish_run_spec, Hrm. cbv zeta.
  rewrite Hout, Hfault, run_failed_world.
  eexists. split; [done|]. simpl. by rewrite last_snoc.
Qed.

Lemma unwritable_output_loses_the_document_witness :
  reaches_pool (Sample.env_faulty ["A"]) Demo.w0 "in.pdf" None ["A"] ∧
  work_dir_clean (Sample.env_faulty ["A"]) Demo.w0 ∧
  truthy (Some "/readonly.txt") = true ∧
  open_write_fault (Sample.env_faulty ["A"]) (default "" (Some "/readonly.txt"))
  = Some (Exn OSError "Read-only file system") ∧
  ∃ w',
    extract_text_from_pdf (Sample.env_faulty ["A"]) Demo.sched "in.pdf"
      (Some "/readonly.txt") None Demo.w0 = (Ret None, w') ∧
    files w' = files Demo.w0 ∧
    dirs w' = dirs Demo.w0 ∖ {[work_dir]} ∧
    last (stdout w')
    = Some ("An error occurred: " +:+ exn_str (Exn OSError "Read-only file system")).
Proof.
  assert (reaches_pool (Sample.env_faulty ["A"]) Demo.w0 "in.pdf" None ["A"]) as Hreach.
  { split; [reflexivity|]. split; [by vm_compute|]. split; [reflexivity|reflexivity]. }
  assert (work_dir_clean (Sample.env_faulty ["A"]) Demo.w0) as Hclean.
  { split; by vm_compute. }
  split; [exact Hreach|]. split; [exact Hclean|].
  split; [reflexivity|]. split; [reflexivity|].
  apply (unwritable_output_loses_the_document (Sample.env_faulty ["A"]) Demo.sched
           "in.pdf" (Some "/readonly.txt") None Demo.w0 ["A"]
           (Exn OSError "Read-only file system") Hreach Hclean).
  - reflexivity.
  - reflexivity.
  - intros [|i] img; simpl; intros [= <-]; reflexivity.
Defined.



(** X11.  A failed page poisons the working directory: after a run in
    which a task left its transient file behind, a later run in the same
    directory returns [None] as well, however sound its input, unless one of
    its own transient paths happens to be the path of the file left behind. *)
Theorem leftover_file_aborts_next_run {image : Type} (env : Env image)
    (sched1 sched2 : schedule) (pdf1 pdf2 : string) (out1 out2 : option string)
    (mt1 mt2 : option Z) (w : world image) (images1 images2 : list image)
    (k : nat) (img : image) :
  reaches_pool env w pdf1 mt1 images1 →
  images1 !! k = Some img →
  leaves_file env (path_of env (sched_ident sched1) work_dir k) img = true →
  reaches_pool env (extract_text_from_pdf env sched1 pdf1 out1 mt1 w).2 pdf2 mt2 images2 →
  (∀ i, (i < length images2)%nat →
     path_of env (sched_ident sched1) work_dir k
     ≠ path_of env (sched_ident sched2) work_dir i) →
  (extract_text_from_pdf env sched1 pdf1 out1 mt1 w).1 = Ret None ∧
  (extract_text_from_pdf env sched2 pdf2 out2 mt2
     (extract_text_from_pdf env sched1 pdf1 out1 mt1 w).2).1 = Ret None.
Proof.
  intros (Hcheck & Hpdf & Hconv & Hmw) Himg Hleft Hreach2 Hfresh.
  destruct (run_leftover env sched1 pdf1 out1 mt1 w images1 k img
              Hcheck Hpdf Hconv Hmw Himg Hleft) as (w1 & Hrun1 & Hfile & _).
  rewrite Hrun1 in *. cbn [fst snd] in *. split; [done|].
  destruct (run_stale env sched2 pdf2 out2 mt2 w1 images2
              (path_of env (sched_ident sched1) work_dir k) Hreach2)
    as (w2 & -> & _); [| |done|done].
  - unfold entries. apply elem_of_union_l, elem_of_dom. by eexists.
  - apply is_child_path_of.
Qed.

Lemma leftover_file_aborts_next_run_witness :
  reaches_pool Sample.env_two_pdfs Sample.w_two_pdfs "bad.pdf" None ["A"; Demo.smudge] ∧
  ["A"; Demo.smudge] !! 1%nat = Some Demo.smudge ∧
  leaves_file Sample.env_two_pdfs
    (path_of Sample.env_two_pdfs (sched_ident Demo.sched) work_dir 1) Demo.smudge = true ∧
  reaches_pool Sample.env_two_pdfs
    (extract_text_from_pdf Sample.env_two_pdfs Demo.sched "bad.pdf" None None
       Sample.w_two_pdfs).2 "good.pdf" None ["A"; "B"] ∧
  (extract_text_from_pdf Sample.env_two_pdfs Demo.sched "bad.pdf" None None
     Sample.w_two_pdfs).1 = Ret None ∧
  (extract_text_from_pdf Sample.env_two_pdfs (Schedule [] (λ i, 8000 + Z.of_nat i))
     "good.pdf" None None
     (extract_text_from_pdf Sample.env_two_pdfs Demo.sched "bad.pdf" None None
        Sample.w_two_pdfs).2).1 = Ret None.
Proof.
  assert (reaches_pool Sample.env_two_pdfs Sample.w_two_pdfs "bad.pdf" None
            ["A"; Demo.smudge]) as Hreach1.
  { split; [reflexivity|]. split; [by vm_compute|]. split; [reflexivity|reflexivity]. }
  assert (reaches_pool Sample.env_two_pdfs
            (extract_text_from_pdf Sample.env_two_pdfs Demo.sched "bad.pdf" None None
               Sample.w_two_pdfs).2 "good.pdf" None ["A"; "B"]) as Hreach2.
  { split; [by vm_compute|]. split; [by vm_compute|]. split; [reflexivity|reflexivity]. }
  split; [exact Hreach1|]. split; [reflexivity|]. split; [reflexivity|].
  split; [exact Hreach2|].
  apply (leftover_file_aborts_next_run Sample.env_two_pdfs Demo.sched
           (Schedule [] (λ i, 8000 + Z.of_nat i)) "bad.pdf" "good.pdf" None None None None
           Sample.w_two_pdfs ["A"; Demo.smudge] ["A"; "B"] 1 Demo.smudge
           Hreach1 eq_refl eq_refl Hreach2).
  intros [|[|i]] Hi; [by vm_compute..|simpl in Hi; lia].
Defined.

(** X12.  Whatever happens, the run changes no file outside the working
    directory other than the output file, and creates or removes no directory
    other than the working directory. *)
Theorem run_touches_nothing_else {image : Type} (env : Env image)
    (sched : schedule) (pdf_path : string) (output_file : option string)
    (max_threads : option Z) (w : world image) (f : string) :
  is_child env work_dir f = false →
  (truthy output_file = true → f ≠ default "" output_file) →
  files (extract_text_from_pdf env sched pdf_path output_file max_threads w).2 !! f
  = files w !! f ∧
  ∀ d, d ≠ work_dir →
       (d ∈ dirs (extract_text_from_pdf env sched pdf_path output_file max_threads w).2
        ↔ d ∈ dirs w).
Proof. apply run_frame. Qed.

Lemma run_touches_nothing_else_witness :
  is_child (Demo.env Demo.three_pages) work_dir "in.pdf" = false ∧
  files (extract_text_from_pdf (Demo.env Demo.three_pages) Demo.sched "in.pdf"
           (Some "out.txt") None Demo.w0).2 !! "in.pdf"
  = files Demo.w0 !! "in.pdf" ∧
  ∀ d, d ≠ work_dir →
       (d ∈ dirs (extract_text_from_pdf (Demo.env Demo.three_pages) Demo.sched "in.pdf"
                    (Some "out.txt") None Demo.w0).2
        ↔ d ∈ dirs Demo.w0).
Proof.
  split; [reflexivity|].
  apply (run_touches_nothing_else (Demo.env Demo.three_pages) Demo.sched "in.pdf"
           (Some "out.txt") None Demo.w0 "in.pdf").
  - reflexivity.
  - intros _. discriminate.
Defined.

(** ** The reassembly *)

(** X13.  For any results and any page count [n], the reassembled text is
    made of the sections of the keys in 1..n that are present, in ascending
    order; entries under other keys are ignored, and for [n ≤ 0] the text is
    empty. *)
Theorem combine_results_reads_pages_in_range (n : Z) (results : gmap Z string) :
  combine_results n results = document (present results (seqZ 1 n)) ∧
  (n ≤ 0 → combine_results n results = "") ∧
  (∀ results' : gmap Z string,
     (∀ q, 1 ≤ q ≤ n → results' !! q = results !! q) →
     combine_results n results' = combine_results n results).
Proof.
  split; [apply combine_results_present|]. split.
  - intros Hn. unfold combine_results. by rewrite seqZ_nil.
  - intros results' Hsame. rewrite !combine_results_present. f_equal.
    unfold present. assert (∀ q, q ∈ seqZ 1 n → results' !! q = results !! q) as H.
    { intros q Hq%elem_of_seqZ. apply Hsame. lia. }
    induction (seqZ 1 n) as [|q pages IH]; [done|].
    csimpl. rewrite (H q) by apply list_elem_of_here.
    rewrite IH; [done|]. intros q' Hq'. apply H. by apply list_elem_of_further.
Qed.

(** ** Edge cases *)

(** X14.  An extraction that succeeds with an empty text is not shown by
    [main]: when the run completes and no page was recorded (an empty PDF, or
    every page failing before its image is written), the extraction returns
    the empty string and [main], even without an output path, prints nothing
    more. *)
Theorem main_is_silent_on_empty_text {image : Type} (env : Env image)
    (sched : schedule) (args : Args.t) (w : world image) (images : list image) :
  reaches_pool env w (Args.pdf_path args) (Args.threads args) images →
  work_dir_clean env w →
  truthy (Args.output args) = false →
  (∀ i img, images !! i = Some img →
     recorded env (path_of env (sched_ident sched) work_dir i) img = None ∧
     leaves_file env (path_of env (sched_ident sched) work_dir i) img = false) →
  ∃ w',
    extract_text_from_pdf env sched (Args.pdf_path args) (Args.output args)
      (Args.threads args) w = (Ret (Some ""), w') ∧
    main env sched args w = (Ret (), w').
Proof.
  intros Hreach Hclean Hout Hnone.
  destruct (run_clean env sched (Args.pdf_path args) (Args.output args)
              (Args.threads args) w images Hreach Hclean) as (w1 & Hrun & _ & _ & Hrm).
  { intros i img Himg. by apply Hnone. }
  rewrite recorded_sections_nil in Hrun by (intros i img Himg; by apply Hnone).
  unfold try_except in Hrun. rewrite finish_run_spec, Hrm, Hout in Hrun.
  cbv zeta in Hrun. simpl in Hrun.
  eexists. split; [exact Hrun|].
  unfold main, mbind, M_bind. rewrite Hrun. done.
Qed.

Lemma main_is_silent_on_empty_text_witness :
  reaches_pool (Demo.env []) Demo.w0 (Args.pdf_path (Args.Make "in.pdf" None None))
    (Args.threads (Args.Make "in.pdf" None None)) [] ∧
  work_dir_clean (Demo.env []) Demo.w0 ∧
  truthy (Args.output (Args.Make "in.pdf" None None)) = false ∧
  ∃ w',
    extract_text_from_pdf (Demo.env []) Demo.sched
      (Args.pdf_path (Args.Make "in.pdf" None None))
      (Args.output (Args.Make "in.pdf" None None))
      (Args.threads (Args.Make "in.pdf" None None)) Demo.w0 = (Ret (Some ""), w') ∧
    main (Demo.env []) Demo.sched (Args.Make "in.pdf" None None) Demo.w0 = (Ret (), w').
Proof.
  assert (reaches_pool (Demo.env []) Demo.w0
            (Args.pdf_path (Args.Make "in.pdf" None None))
            (Args.threads (Args.Make "in.pdf" None None)) []) as Hreach.
  { split; [reflexivity|]. split; [by vm_compute|]. split; [reflexivity|reflexivity]. }
  assert (work_dir_clean (Demo.env []) Demo.w0) as Hclean.
  { split; by vm_compute. }
  split; [exact Hreach|]. split; [exact Hclean|]. split; [reflexivity|].
  apply (main_is_silent_on_empty_text (Demo.env []) Demo.sched
           (Args.Make "in.pdf" None None) Demo.w0 [] Hreach Hclean).
  - reflexivity.
  - intros i img [=].
Defined.

(** X15.  A run stopped by a non-positive worker count has already made
    the working directory and does not remove it: the run returns [None],
    changes no file, and leaves [temp_ocr_images] behind. *)
Theorem nonpositive_workers_leave_directory {image : Type} (env : Env image)
    (sched : schedule) (pdf_path : string) (output_file : option string)
    (max_threads : option Z) (w : world image) (images : list image) :
  (check_dependencies env w).1 = Ret true →
  path_exists w pdf_path = true →
  convert_from_path env pdf_path = Ret images →
  pool_size env max_threads ≤ 0 →
  path_exists w work_dir = false →
  ∃ w',
    extract_text_from_pdf env sched pdf_path output_file max_threads w = (Ret None, w') ∧
    files w' = files w ∧
    dirs w' = {[work_dir]} ∪ dirs w.
Proof.
  intros Hcheck Hpdf Hconv Hmw Hnodir.
  destruct (run_no_worker env sched pdf_path output_file max_threads w images
              Hcheck Hpdf Hconv Hmw) as (w' & Hrun & Hfiles & Hdirs).
  rewrite Hnodir in Hdirs. by exists w'.
Qed.

Lemma nonpositive_workers_leave_directory_witness :
  (check_dependencies (Demo.env ["A"]) Demo.w0).1 = Ret true ∧
  path_exists Demo.w0 "in.pdf" = true ∧
  convert_from_path (Demo.env ["A"]) "in.pdf" = Ret ["A"] ∧
  pool_size (Demo.env ["A"]) (Some (-2)) ≤ 0 ∧
  path_exists Demo.w0 work_dir = false ∧
  ∃ w',
    extract_text_from_pdf (Demo.env ["A"]) Demo.sched "in.pdf" None (Some (-2)) Demo.w0
    = (Ret None, w') ∧
    files w' = files Demo.w0 ∧
    dirs w' = {[work_dir]} ∪ dirs Demo.w0.
Proof.
  split; [reflexivity|]. split; [by vm_compute|]. split; [reflexivity|].
  split; [by vm_compute|]. split; [by vm_compute|].
  apply (nonpositive_workers_leave_directory (Demo.env ["A"]) Demo.sched "in.pdf" None
           (Some (-2)) Demo.w0 ["A"]).
  - reflexivity.
  - by vm_compute.
  - reflexivity.
  - by vm_compute.
  - by vm_compute.
Defined.

(** X16.  A [False] verdict of [check_dependencies] is always explained:
    the function has then printed at least one line, the first of which
    starts with "Error:". *)
Theorem false_verdict_is_explained {image : Type} (env : Env image) (w : world image) :
  (check_dependencies env w).1 = Ret false →
  ∃ line lines,
    stdout (check_dependencies env w).2 = (stdout w ++ line :: lines)%list ∧
    String.prefix "Error:" line = true.
Proof.
  cbv [check_dependencies check_tesseract mbind M_bind get_state mret M_ret print raise].
  destruct (is_win env).
  - destruct (existsb _ _); simpl.
    + destruct (get_tesseract_version env) as [v|e]; simpl; [done|].
      destruct (exn_cls e); simpl; try done.
      intros _. eexists _, _. split; [by rewrite <- !(assoc_L (++))|reflexivity].
    + intros _. eexists _, _. split; [by rewrite <- !(assoc_L (++))|reflexivity].
  - destruct (which env "pdftoppm"); simpl.
    + destruct (get_tesseract_version env) as [v|e]; simpl; [done|].
      destruct (exn_cls e); simpl; try done.
      intros _. eexists _, _. split; [by rewrite <- !(assoc_L (++))|reflexivity].
    + intros _. eexists _, _. split; [by rewrite <- !(assoc_L (++))|reflexivity].
Qed.

Lemma false_verdict_is_explained_witness :
  (check_dependencies Demo.env_no_tesseract Demo.w0).1 = Ret false ∧
  ∃ line lines,
    stdout (check_dependencies Demo.env_no_tesseract Demo.w0).2
    = (stdout Demo.w0 ++ line :: lines)%list ∧
    String.prefix "Error:" line = true.
Proof.
  split; [reflexivity|].
  apply (false_verdict_is_explained Demo.env_no_tesseract Demo.w0).
  reflexivity.
Defined.

(** ** The reports of the pool *)



(** ** Isolation and repetition *)

(** X18.  Tasks do not interfere: under every schedule, each task of the
    pool returns exactly what its call of [process_page] returns when it runs
    alone, on its own thread, in the state in which the pool started. *)
Theorem tasks_run_in_isolation {image : Type} (env : Env image) (max_workers : Z)
    (sched : schedule) (images : list image) (dir : string) (w : world image) :
  0 < max_workers →
  ∃ tasks s',
    thread_pool env max_workers sched images
      (State {| temp_dir := dir; results := ∅ |} w) = (Ret tasks, s') ∧
    ∀ i img, images !! i = Some img →
      ∃ r, tasks !! i = Some (Done r) ∧
           (process_page env (sched_ident sched i) (page_of i, img)
              (State {| temp_dir := dir; results := ∅ |} w)).1 = Ret r.
Proof.
  intros Hmw.
  destruct (process_pages_joined env max_workers sched images dir w Hmw)
    as (tasks & s' & Hpool & _ & _ & Htasks & _).
  exists tasks, s'. split; [done|].
  intros i img Himg. destruct (Htasks i img Himg) as (Hr & _).
  eexists. split; [exact Hr|]. by rewrite process_page_returns.
Qed.

Lemma tasks_run_in_isolation_witness :
  0 < 2 ∧
  ∃ tasks s',
    thread_pool (Demo.env Demo.three_pages) 2 Demo.sched Demo.three_pages
      (State {| temp_dir := work_dir; results := ∅ |} Demo.w_dir) = (Ret tasks, s') ∧
    ∀ i img, Demo.three_pages !! i = Some img →
      ∃ r, tasks !! i = Some (Done r) ∧
           (process_page (Demo.env Demo.three_pages) (sched_ident Demo.sched i)
              (page_of i, img)
              (State {| temp_dir := work_dir; results := ∅ |} Demo.w_dir)).1 = Ret r.
Proof.
  split; [lia|].
  apply (tasks_run_in_isolation (Demo.env Demo.three_pages) 2 Demo.sched
           Demo.three_pages work_dir Demo.w_dir).
  lia.
Defined.

(** X19.  The run can be repeated: after a run that completed without an
    output file, a second run on the same input, with the same thread
    identities but any schedule and number of workers, returns the same
    document. *)
Theorem second_run_returns_same_document {image : Type} (env : Env image)
    (sched1 sched2 : schedule) (pdf_path : string) (mt1 mt2 : option Z)
    (w : world image) (images : list image) :
  reaches_pool env w pdf_path mt1 images →
  work_dir_clean env w →
  (∀ i img, images !! i = Some img →
     leaves_file env (path_of env (sched_ident sched1) work_dir i) img = false) →
  sched_ident sched2 = sched_ident sched1 →
  0 < pool_size env mt2 →
  pdf_path ≠ work_dir →
  (extract_text_from_pdf env sched2 pdf_path None mt2
     (extract_text_from_pdf env sched1 pdf_path None mt1 w).2).1
  = (extract_text_from_pdf env sched1 pdf_path None mt1 w).1.
Proof.
  intros Hreach Hclean Hnone Hident Hmw2 Hpdf.
  destruct (run_completes env sched1 pdf_path None mt1 w images Hreach Hclean)
    as (w1 & Hrun1 & Hfiles & Hdirs); [done|done|].
  rewrite Hrun1. cbn [fst snd]. simpl in Hfiles.
  assert (∀ d, d ≠ work_dir → d ∈ dirs w1 ↔ d ∈ dirs w) as Hd.
  { intros d Hne. rewrite Hdirs, elem_of_difference, elem_of_singleton. tauto. }
  destruct Hreach as (Hcheck & Hex & Hconv & _).
  destruct Hclean as [Hnofile Hempty].
  destruct (run_completes env sched2 pdf_path None mt2 w1 images)
    as (w2 & -> & _).
  - split; [|split; [|by split]].
    + apply check_dependencies_passes. apply check_dependencies_passes in Hcheck.
      by rewrite (poppler_found_frame env w w1).
    + unfold path_exists in *. rewrite Hfiles.
      rewrite (bool_decide_ext (pdf_path ∈ dirs w1) (pdf_path ∈ dirs w)); [done|].
      by apply Hd.
  - split; [by rewrite Hfiles|].
    apply bool_decide_eq_true. apply bool_decide_eq_true in Hempty.
    intros p Hp. apply (Hempty p). unfold entries in *. rewrite Hfiles, Hdirs in Hp.
    apply elem_of_union in Hp as [Hp|Hp]; [by apply elem_of_union_l|].
    apply elem_of_union_r. by apply elem_of_difference in Hp as [Hp _].
  - done.
  - intros i img Himg. rewrite Hident. by apply Hnone.
  - by rewrite Hident.
Qed.

Lemma second_run_returns_same_document_witness :
  reaches_pool (Demo.env ["A"; "B"]) Demo.w0 "in.pdf" None ["A"; "B"] ∧
  work_dir_clean (Demo.env ["A"; "B"]) Demo.w0 ∧
  sched_ident (Schedule [1%nat; 0%nat] (sched_ident Demo.sched)) = sched_ident Demo.sched ∧
  0 < pool_size (Demo.env ["A"; "B"]) (Some 1) ∧
  "in.pdf" ≠ work_dir ∧
  (extract_text_from_pdf (Demo.env ["A"; "B"])
     (Schedule [1%nat; 0%nat] (sched_ident Demo.sched)) "in.pdf" None (Some 1)
     (extract_text_from_pdf (Demo.env ["A"; "B"]) Demo.sched "in.pdf" None None
        Demo.w0).2).1
  = (extract_text_from_pdf (Demo.env ["A"; "B"]) Demo.sched "in.pdf" None None Demo.w0).1.
Proof.
  assert (reaches_pool (Demo.env ["A"; "B"]) Demo.w0 "in.pdf" None ["A"; "B"]) as Hreach.
  { split; [reflexivity|]. split; [by vm_compute|]. split; [reflexivity|reflexivity]. }
  assert (work_dir_clean (Demo.env ["A"; "B"]) Demo.w0) as Hclean.
  { split; by vm_compute. }
  split; [exact Hreach|]. split; [exact Hclean|]. split; [reflexivity|].
  split; [reflexivity|]. split; [discriminate|].
  apply (second_run_returns_same_document (Demo.env ["A"; "B"]) Demo.sched
           (Schedule [1%nat; 0%nat] (sched_ident Demo.sched)) "in.pdf" None (Some 1)
           Demo.w0 ["A"; "B"] Hreach Hclean).
  - intros [|[|i]] img; simpl; intros [= <-]; reflexivity.
  - reflexivity.
  - reflexivity.
  - discriminate.
Defined.
